(** * UFCA: the InvestmentUnitUpgradeable ledger

    A shallow embedding of the Solidity contract
    [contracts/InvestmentUnitUpgradeable.sol] (the heredoc of
    [create_project.sh]): whitelist, freeze, pause, per-address linear
    vesting, owner-gated mint and burn, holder-initiated transfer.

    Solidity 0.8 arithmetic is checked: an overflowing [+] or [*], an
    underflowing [-] and a division by zero revert with a panic.  Inside an
    [unchecked] block arithmetic wraps modulo [2^256].  Both are written
    out below.  The inherited OpenZeppelin 4.9 bodies of [_mint], [_burn],
    [_transfer], [onlyOwner], [whenNotPaused], [_pause] and [_unpause]
    are embedded as that library defines them.

    The transactions considered are the functions the contract declares
    and ERC20's [transfer].  The allowance, ownership-transfer and upgrade
    entry points that the contract also inherits are left out. *)

From Stdlib Require Import ZArith Lia List.
From stdpp Require Import base option gmap fin_maps.

Local Open Scope Z_scope.

(** ** Machine integers *)

Definition MAX_UINT64 : Z := 2 ^ 64 - 1.
Definition MAX_UINT256 : Z := 2 ^ 256 - 1.

Definition is_uint64 (x : Z) : Prop := 0 <= x <= MAX_UINT64.
Definition is_uint256 (x : Z) : Prop := 0 <= x <= MAX_UINT256.

(** [uint64(x)]: an explicit narrowing conversion truncates. *)
Definition to_uint64 (x : Z) : Z := x mod 2 ^ 64.

(** Wrap-around of an [unchecked] block. *)
Definition wrap256 (x : Z) : Z := x mod 2 ^ 256.

(** ** Reverts *)

(** One constructor per revert reason of the contract and of the inherited
    code it runs through. *)
Inductive Error :=
| NotOwner                (* "Ownable: caller is not the owner" *)
| NotWhitelisted          (* "Not whitelisted" *)
| VestingExists           (* "Vesting exists" *)
| SystemPaused            (* "Pausable: paused" *)
| NotPaused               (* "Pausable: not paused" *)
| SenderFrozen            (* "Sender frozen" *)
| SenderNotWhitelisted    (* "Sender not whitelisted" *)
| AmountLocked            (* "Amount locked" *)
| ReceiverFrozen          (* "Receiver frozen" *)
| ReceiverNotWhitelisted  (* "Receiver not whitelisted" *)
| MintToZero              (* "ERC20: mint to the zero address" *)
| BurnFromZero            (* "ERC20: burn from the zero address" *)
| TransferFromZero        (* "ERC20: transfer from the zero address" *)
| TransferToZero          (* "ERC20: transfer to the zero address" *)
| BurnExceedsBalance      (* "ERC20: burn amount exceeds balance" *)
| TransferExceedsBalance  (* "ERC20: transfer amount exceeds balance" *)
| PanicOverflow           (* Panic(0x11) *)
| PanicDivZero.           (* Panic(0x12) *)

Inductive result (A : Type) : Type :=
| Ok (a : A)
| Revert (e : Error).
Arguments Ok {A} a.
Arguments Revert {A} e.

#[global] Instance result_ret : MRet result := fun A a => Ok a.
#[global] Instance result_bind : MBind result := fun A B k r =>
  match r with
  | Ok a => k a
  | Revert e => Revert e
  end.

(** [require(c, reason)] *)
Definition require (c : bool) (e : Error) : result unit :=
  if c then Ok tt else Revert e.

(** Checked arithmetic of Solidity 0.8 at a given maximum. *)
Definition checked_add (max a b : Z) : result Z :=
  if a + b <=? max then Ok (a + b) else Revert PanicOverflow.

Definition checked_sub (a b : Z) : result Z :=
  if b <=? a then Ok (a - b) else Revert PanicOverflow.

Definition checked_mul (max a b : Z) : result Z :=
  if a * b <=? max then Ok (a * b) else Revert PanicOverflow.

Definition checked_div (a b : Z) : result Z :=
  if b =? 0 then Revert PanicDivZero else Ok (a / b).

(** ** Storage *)

Definition address := N.
Definition zero_address : address := 0%N.

Record Vesting := mkVesting {
  total : Z;
  released : Z;
  start : Z;
  duration : Z
}.

Definition no_vesting : Vesting := mkVesting 0 0 0 0.

(** Events of the contract and of the inherited code it runs through. *)
Inductive Event :=
| OwnershipTransferred (previousOwner newOwner : address)
| Initialized (version : Z)
| Paused (account : address)
| Unpaused (account : address)
| Transfer (from to : address) (value : Z)
| Whitelisted (account : address)
| Unwhitelisted (account : address)
| Frozen (account : address)
| Unfrozen (account : address)
| VestingCreated (account : address) (tot st dur : Z)
| Minted (to : address) (amount : Z)
| MintedWithVesting (to : address) (amount dur : Z)
| Burned (from : address) (amount : Z).

Record State := mkState {
  owner : address;                    (* OwnableUpgradeable._owner *)
  paused : bool;                      (* PausableUpgradeable._paused *)
  totalSupply : Z;                    (* ERC20Upgradeable._totalSupply *)
  balances : gmap N Z;                (* ERC20Upgradeable._balances *)
  whitelist : gmap N bool;
  frozen : gmap N bool;
  vesting : gmap N Vesting;
  events : list Event                 (* the log, oldest first *)
}.

(** A Solidity mapping reads its type's zero value at an absent key. *)
Definition balanceOf (s : State) (a : address) : Z :=
  default 0 (balances s !! a).
Definition isWhitelisted (s : State) (a : address) : bool :=
  default false (whitelist s !! a).
Definition isFrozen (s : State) (a : address) : bool :=
  default false (frozen s !! a).
Definition vestingOf (s : State) (a : address) : Vesting :=
  default no_vesting (vesting s !! a).

Definition set_paused (b : bool) (s : State) : State :=
  mkState (owner s) b (totalSupply s) (balances s) (whitelist s)
          (frozen s) (vesting s) (events s).
Definition set_totalSupply (t : Z) (s : State) : State :=
  mkState (owner s) (paused s) t (balances s) (whitelist s)
          (frozen s) (vesting s) (events s).
Definition set_balance (a : address) (v : Z) (s : State) : State :=
  mkState (owner s) (paused s) (totalSupply s) (<[a := v]> (balances s))
          (whitelist s) (frozen s) (vesting s) (events s).
Definition set_whitelist (a : address) (b : bool) (s : State) : State :=
  mkState (owner s) (paused s) (totalSupply s) (balances s)
          (<[a := b]> (whitelist s)) (frozen s) (vesting s) (events s).
Definition set_frozen (a : address) (b : bool) (s : State) : State :=
  mkState (owner s) (paused s) (totalSupply s) (balances s) (whitelist s)
          (<[a := b]> (frozen s)) (vesting s) (events s).
Definition set_vesting (a : address) (v : Vesting) (s : State) : State :=
  mkState (owner s) (paused s) (totalSupply s) (balances s) (whitelist s)
          (frozen s) (<[a := v]> (vesting s)) (events s).
Definition emit (e : Event) (s : State) : State :=
  mkState (owner s) (paused s) (totalSupply s) (balances s) (whitelist s)
          (frozen s) (vesting s) (events s ++ [e]).

(** The transaction context: [msg.sender] and [block.timestamp]. *)
Record Ctx := mkCtx {
  sender : address;
  timestamp : Z
}.

(** ** Vesting queries *)

(** [vestedAmount(user)] at [block.timestamp = t]. *)
Definition vestedAmount (s : State) (user : address) (t : Z) : result Z :=
  let v := vestingOf s user in
  if total v =? 0 then Ok (balanceOf s user)
  else if t <? start v then Ok 0
  else
    fin ← checked_add MAX_UINT64 (start v) (duration v);
    if t >=? fin then Ok (total v)
    else
      elapsed ← checked_sub t (start v);
      prod ← checked_mul MAX_UINT256 (total v) elapsed;
      checked_div prod (duration v).

(** [available(user)] at [block.timestamp = t]. *)
Definition available (s : State) (user : address) (t : Z) : result Z :=
  let v := vestingOf s user in
  if total v =? 0 then Ok (balanceOf s user)
  else
    vested ← vestedAmount s user t;
    if vested <=? released v then Ok 0
    else Ok (vested - released v).

(** ** Hooks around every balance mutation *)

Definition whenNotPaused (s : State) : result unit :=
  require (negb (paused s)) SystemPaused.

Definition whenPaused (s : State) : result unit :=
  require (paused s) NotPaused.

Definition onlyOwner (s : State) (c : Ctx) : result unit :=
  require (N.eqb (owner s) (sender c)) NotOwner.

(** [_beforeTokenTransfer], under its modifier [whenNotPaused]; the
    [super] hook it ends with is empty. *)
Definition _beforeTokenTransfer (s : State) (t : Z)
    (from to : address) (amount : Z) : result unit :=
  whenNotPaused s;;
  (if negb (N.eqb from zero_address) then
     require (negb (isFrozen s from)) SenderFrozen;;
     require (isWhitelisted s from) SenderNotWhitelisted;;
     if 0 <? total (vestingOf s from) then
       a ← available s from t;
       require (amount <=? a) AmountLocked
     else Ok tt
   else Ok tt);;
  (if negb (N.eqb to zero_address) then
     require (negb (isFrozen s to)) ReceiverFrozen;;
     require (isWhitelisted s to) ReceiverNotWhitelisted
   else Ok tt).

Definition set_released (r : Z) (v : Vesting) : Vesting :=
  mkVesting (total v) r (start v) (duration v).

(** [_afterTokenTransfer]: the two stores to [vesting[from].released],
    the second one the clamp; the [super] hook is empty. *)
Definition _afterTokenTransfer (s : State)
    (from to : address) (amount : Z) : result State :=
  if negb (N.eqb from zero_address) && (0 <? total (vestingOf s from)) then
    let v := vestingOf s from in
    r ← checked_add MAX_UINT256 (released v) amount;
    let v1 := set_released r v in
    let v2 := if total v1 <? released v1
              then set_released (total v1) v1 else v1 in
    Ok (set_vesting from v2 s)
  else Ok s.

(** ** Inherited ERC20 internals (OpenZeppelin 4.9) *)

Definition _mint (s : State) (t : Z) (account : address) (amount : Z)
    : result State :=
  require (negb (N.eqb account zero_address)) MintToZero;;
  _beforeTokenTransfer s t zero_address account amount;;
  ts ← checked_add MAX_UINT256 (totalSupply s) amount;
  let s1 := set_totalSupply ts s in
  let s2 := set_balance account (wrap256 (balanceOf s1 account + amount)) s1 in
  let s3 := emit (Transfer zero_address account amount) s2 in
  _afterTokenTransfer s3 zero_address account amount.

Definition _burn (s : State) (t : Z) (account : address) (amount : Z)
    : result State :=
  require (negb (N.eqb account zero_address)) BurnFromZero;;
  _beforeTokenTransfer s t account zero_address amount;;
  let accountBalance := balanceOf s account in
  require (amount <=? accountBalance) BurnExceedsBalance;;
  let s1 := set_balance account (wrap256 (accountBalance - amount)) s in
  let s2 := set_totalSupply (wrap256 (totalSupply s1 - amount)) s1 in
  let s3 := emit (Transfer account zero_address amount) s2 in
  _afterTokenTransfer s3 account zero_address amount.

Definition _transfer (s : State) (t : Z) (from to : address) (amount : Z)
    : result State :=
  require (negb (N.eqb from zero_address)) TransferFromZero;;
  require (negb (N.eqb to zero_address)) TransferToZero;;
  _beforeTokenTransfer s t from to amount;;
  let fromBalance := balanceOf s from in
  require (amount <=? fromBalance) TransferExceedsBalance;;
  let s1 := set_balance from (wrap256 (fromBalance - amount)) s in
  let s2 := set_balance to (wrap256 (balanceOf s1 to + amount)) s1 in
  let s3 := emit (Transfer from to amount) s2 in
  _afterTokenTransfer s3 from to amount.

(** ** External functions *)

(** [initialize()], run once by the deployer: [__Ownable_init] makes the
    caller the owner, the caller is whitelisted, and the [initializer]
    modifier closes with [Initialized(1)]. *)
Definition initialize (deployer : address) : State :=
  emit (Initialized 1)
    (emit (Whitelisted deployer)
       (mkState deployer false 0 ∅ {[ deployer := true ]} ∅ ∅
          [OwnershipTransferred zero_address deployer])).

Definition addToWhitelist (s : State) (c : Ctx) (user : address)
    : result State :=
  onlyOwner s c;;
  Ok (emit (Whitelisted user) (set_whitelist user true s)).

Definition removeFromWhitelist (s : State) (c : Ctx) (user : address)
    : result State :=
  onlyOwner s c;;
  Ok (emit (Unwhitelisted user) (set_whitelist user false s)).

Definition freezeAddress (s : State) (c : Ctx) (user : address)
    : result State :=
  onlyOwner s c;;
  Ok (emit (Frozen user) (set_frozen user true s)).

Definition unfreezeAddress (s : State) (c : Ctx) (user : address)
    : result State :=
  onlyOwner s c;;
  Ok (emit (Unfrozen user) (set_frozen user false s)).

Definition pause (s : State) (c : Ctx) : result State :=
  onlyOwner s c;;
  whenNotPaused s;;
  Ok (emit (Paused (sender c)) (set_paused true s)).

Definition unpause (s : State) (c : Ctx) : result State :=
  onlyOwner s c;;
  whenPaused s;;
  Ok (emit (Unpaused (sender c)) (set_paused false s)).

Definition mint (s : State) (c : Ctx) (to : address) (amount : Z)
    : result State :=
  onlyOwner s c;;
  require (isWhitelisted s to) NotWhitelisted;;
  s1 ← _mint s (timestamp c) to amount;
  Ok (emit (Minted to amount) s1).

Definition mintWithVesting (s : State) (c : Ctx)
    (to : address) (amount dur : Z) : result State :=
  onlyOwner s c;;
  require (isWhitelisted s to) NotWhitelisted;;
  require (total (vestingOf s to) =? 0) VestingExists;;
  s1 ← _mint s (timestamp c) to amount;
  let st := to_uint64 (timestamp c) in
  let s2 := set_vesting to (mkVesting amount 0 st dur) s1 in
  let s3 := emit (MintedWithVesting to amount dur) s2 in
  Ok (emit (VestingCreated to amount st dur) s3).

Definition burn (s : State) (c : Ctx) (from : address) (amount : Z)
    : result State :=
  onlyOwner s c;;
  s1 ← _burn s (timestamp c) from amount;
  Ok (emit (Burned from amount) s1).

(** ERC20 [transfer(to, amount)]: the sender is [msg.sender]. *)
Definition transfer (s : State) (c : Ctx) (to : address) (amount : Z)
    : result State :=
  _transfer s (timestamp c) (sender c) to amount.

(** ** Transactions *)

Inductive Call :=
| call_addToWhitelist (user : address)
| call_removeFromWhitelist (user : address)
| call_freezeAddress (user : address)
| call_unfreezeAddress (user : address)
| call_pause
| call_unpause
| call_mint (to : address) (amount : Z)
| call_mintWithVesting (to : address) (amount dur : Z)
| call_burn (from : address) (amount : Z)
| call_transfer (to : address) (amount : Z).

Definition exec (s : State) (c : Ctx) (call : Call) : result State :=
  match call with
  | call_addToWhitelist u => addToWhitelist s c u
  | call_removeFromWhitelist u => removeFromWhitelist s c u
  | call_freezeAddress u => freezeAddress s c u
  | call_unfreezeAddress u => unfreezeAddress s c u
  | call_pause => pause s c
  | call_unpause => unpause s c
  | call_mint to amount => mint s c to amount
  | call_mintWithVesting to amount dur => mintWithVesting s c to amount dur
  | call_burn from amount => burn s c from amount
  | call_transfer to amount => transfer s c to amount
  end.

(** A reverted transaction leaves storage and log as they were. *)
Definition step (s : State) (c : Ctx) (call : Call) : State :=
  match exec s c call with
  | Ok s' => s'
  | Revert _ => s
  end.

(** Arguments as the ABI decodes them. *)
Definition wf_call (c : Ctx) (call : Call) : Prop :=
  is_uint256 (timestamp c) /\
  match call with
  | call_mint _ amount | call_burn _ amount | call_transfer _ amount =>
      is_uint256 amount
  | call_mintWithVesting _ amount dur => is_uint256 amount /\ is_uint64 dur
  | _ => True
  end.

Inductive reachable : State -> Prop :=
| reachable_init (deployer : address) : reachable (initialize deployer)
| reachable_step (s : State) (c : Ctx) (call : Call) :
    reachable s -> wf_call c call -> reachable (step s c call).

(** A trace of transactions, run from left to right. *)
Fixpoint run (s : State) (tr : list (Ctx * Call)) : State :=
  match tr with
  | [] => s
  | (c, call) :: tr' => run (step s c call) tr'
  end.

(** ** Ledger invariants *)

Definition sum_map (m : gmap N Z) : Z :=
  map_fold (fun _ b acc => b + acc) 0 m.

Definition sum_balances (s : State) : Z := sum_map (balances s).

(** Units minted and burned so far, read off the log. *)
Definition minted_of (e : Event) : Z :=
  match e with
  | Minted _ amount => amount
  | MintedWithVesting _ amount _ => amount
  | _ => 0
  end.

Definition burned_of (e : Event) : Z :=
  match e with
  | Burned _ amount => amount
  | _ => 0
  end.

Definition minted_in (l : list Event) : Z :=
  fold_right (fun e acc => minted_of e + acc) 0 l.

Definition burned_in (l : list Event) : Z :=
  fold_right (fun e acc => burned_of e + acc) 0 l.

Definition total_minted (s : State) : Z := minted_in (events s).

Definition total_burned (s : State) : Z := burned_in (events s).

Definition wf_vesting (v : Vesting) : Prop :=
  0 <= released v <= total v /\ total v <= MAX_UINT256 /\
  is_uint64 (start v) /\ is_uint64 (duration v).

(** Balances are non-negative and add up to [totalSupply], which fits 256
    bits; every schedule is well formed. *)
Record core_inv (s : State) : Prop := mk_core_inv {
  inv_balances : map_Forall (fun _ b => 0 <= b) (balances s);
  inv_supply : totalSupply s = sum_balances s;
  inv_supply_max : totalSupply s <= MAX_UINT256;
  inv_vesting : forall a, wf_vesting (vestingOf s a)
}.

(** [totalSupply] is what the log says was minted less what it says was
    burned. *)
Definition audit_inv (s : State) : Prop :=
  totalSupply s = total_minted s - total_burned s.

Definition ledger_inv (s : State) : Prop := core_inv s /\ audit_inv s.

(** What the settlement hook stores for a holder with a schedule. *)
Definition clamp_released (v : Vesting) (amount : Z) : Vesting :=
  set_released (Z.min (released v + amount) (total v)) v.

(** Units leaving holder [h] in one transaction: the amount of a
    successful burn from [h] or transfer sent by [h]. *)
Definition moved_out (h : address) (s : State) (c : Ctx) (call : Call) : Z :=
  match exec s c call with
  | Revert _ => 0
  | Ok _ =>
      match call with
      | call_burn from amount => if N.eqb from h then amount else 0
      | call_transfer _ amount => if N.eqb (sender c) h then amount else 0
      | _ => 0
      end
  end.

Fixpoint moved_out_total (h : address) (s : State) (tr : list (Ctx * Call))
    : Z :=
  match tr with
  | [] => 0
  | (c, call) :: tr' =>
      moved_out h s c call + moved_out_total h (step s c call) tr'
  end.

(** The vesting curve in the words of the specification. *)
Definition vested_piecewise (bal : Z) (v : Vesting) (t : Z) : Z :=
  if total v =? 0 then bal
  else if t <? start v then 0
  else if start v + duration v <=? t then total v
  else total v * (t - start v) / duration v.

(** ** Reading a ledger *)

(** Two ledgers that answer every read alike: the same owner, pause flag
    and supply, and the same balance, flags and schedule at every address.
    The log is not read by any function of the contract. *)
Definition same_storage (s s' : State) : Prop :=
  owner s = owner s' /\ paused s = paused s' /\
  totalSupply s = totalSupply s' /\
  (forall a, balanceOf s a = balanceOf s' a) /\
  (forall a, isWhitelisted s a = isWhitelisted s' a) /\
  (forall a, isFrozen s a = isFrozen s' a) /\
  (forall a, vestingOf s a = vestingOf s' a).

(** Two outcomes of a transaction that cannot be told apart by reads. *)
Definition same_outcome (r r' : result State) : Prop :=
  match r, r' with
  | Ok s, Ok s' => same_storage s s'
  | Revert e, Revert e' => e = e'
  | _, _ => False
  end.

(** What only the owner's functions write: the owner, the pause flag, the
    supply, the whitelist and freeze flags, and the [total], [start] and
    [duration] of every schedule. *)
Definition same_controls (s s' : State) : Prop :=
  owner s' = owner s /\ paused s' = paused s /\
  totalSupply s' = totalSupply s /\
  forall a,
    isWhitelisted s' a = isWhitelisted s a /\
    isFrozen s' a = isFrozen s a /\
    total (vestingOf s' a) = total (vestingOf s a) /\
    start (vestingOf s' a) = start (vestingOf s a) /\
    duration (vestingOf s' a) = duration (vestingOf s a).

(** Units arriving at holder [h] in one transaction: the amount of a
    successful mint or transfer to [h]. *)
Definition moved_in (h : address) (s : State) (c : Ctx) (call : Call) : Z :=
  match exec s c call with
  | Revert _ => 0
  | Ok _ =>
      match call with
      | call_mint to amount | call_mintWithVesting to amount _
      | call_transfer to amount => if N.eqb to h then amount else 0
      | _ => 0
      end
  end.

(** The events a successful call emits, in order. *)
Definition emitted (c : Ctx) (call : Call) : list Event :=
  match call with
  | call_addToWhitelist u => [Whitelisted u]
  | call_removeFromWhitelist u => [Unwhitelisted u]
  | call_freezeAddress u => [Frozen u]
  | call_unfreezeAddress u => [Unfrozen u]
  | call_pause => [Paused (sender c)]
  | call_unpause => [Unpaused (sender c)]
  | call_mint to amount =>
      [Transfer zero_address to amount; Minted to amount]
  | call_mintWithVesting to amount dur =>
      [Transfer zero_address to amount; MintedWithVesting to amount dur;
       VestingCreated to amount (to_uint64 (timestamp c)) dur]
  | call_burn from amount =>
      [Transfer from zero_address amount; Burned from amount]
  | call_transfer to amount => [Transfer (sender c) to amount]
  end.

(** What a successful call adds to [totalSupply]. *)
Definition supply_change (call : Call) : Z :=
  match call with
  | call_mint _ amount | call_mintWithVesting _ amount _ => amount
  | call_burn _ amount => - amount
  | _ => 0
  end.

(** What is still locked under a schedule is covered by the balance. *)
Definition backed (s : State) : Prop :=
  forall h, 0 < total (vestingOf s h) ->
    total (vestingOf s h) - released (vestingOf s h) <= balanceOf s h.

(** ** The operator script *)

(** [scripts/mint_and_freeze.js], [main()]: the wallet sends
    [addToWhitelist(TO)], [mint(TO, amountUnits)] and [freezeAddress(TO)],
    awaiting each; a reverted transaction throws and ends the script with
    the ledger as the earlier transactions left it.  On success the
    script reads [balanceOf(TO)].  [t1], [t2], [t3] are the timestamps of
    the three blocks; no other transaction is taken to come in between. *)
Definition mint_and_freeze (s : State) (wallet : address) (t1 t2 t3 : Z)
    (TO : address) (amountUnits : Z) : State * result Z :=
  match addToWhitelist s (mkCtx wallet t1) TO with
  | Revert e => (s, Revert e)
  | Ok s1 =>
      match mint s1 (mkCtx wallet t2) TO amountUnits with
      | Revert e => (s1, Revert e)
      | Ok s2 =>
          match freezeAddress s2 (mkCtx wallet t3) TO with
          | Revert e => (s2, Revert e)
          | Ok s3 => (s3, Ok (balanceOf s3 TO))
          end
      end
  end.

(** ** Example ledgers *)

Definition deployer1 : address := 1%N.
Definition alice : address := 2%N.
Definition bob : address := 3%N.

(** After deployment at time 1000: alice and bob whitelisted. *)
Definition s_listed : State :=
  run (initialize deployer1)
    [ (mkCtx deployer1 1000, call_addToWhitelist alice);
      (mkCtx deployer1 1000, call_addToWhitelist bob) ].

(** bob holds 100 units vesting over 100 seconds from time 1000. *)
Definition s_vesting : State :=
  run s_listed [ (mkCtx deployer1 1000, call_mintWithVesting bob 100 100) ].

(** bob holds 100 units under a schedule of the longest duration. *)
Definition s_long_lock : State :=
  run s_listed
    [ (mkCtx deployer1 1000, call_mintWithVesting bob 100 MAX_UINT64) ].

(** bob holds [2^255] units vesting over 100 seconds from time 1000. *)
Definition s_huge : State :=
  run s_listed
    [ (mkCtx deployer1 1000, call_mintWithVesting bob (2 ^ 255) 100) ].

(** bob holds 100 units under a schedule of duration zero. *)
Definition s_instant : State :=
  run s_listed [ (mkCtx deployer1 1000, call_mintWithVesting bob 100 0) ].

(** A frozen address that was never whitelisted. *)
Definition carol : address := 4%N.
Definition s_frozen_unlisted : State :=
  run s_listed [ (mkCtx deployer1 1000, call_freezeAddress carol) ].

(** The ledger paused by its owner. *)
Definition s_paused : State :=
  run s_listed [ (mkCtx deployer1 1000, call_pause) ].

(** bob, one tenth into the schedule of [s_vesting], sends alice 9 units
    and, half way, another 30. *)
Definition bob_sends : list (Ctx * Call) :=
  [ (mkCtx bob 1010, call_transfer alice 9);
    (mkCtx bob 1050, call_transfer alice 30);
    (mkCtx bob 1050, call_transfer alice 30) ].

(** alice holds 10 plain units. *)
Definition s_funded : State :=
  run s_listed [ (mkCtx deployer1 1000, call_mint alice 10) ].

(** alice holds 10 plain units and bob, whitelisted, is frozen. *)
Definition s_bob_frozen : State :=
  run s_funded [ (mkCtx deployer1 1000, call_freezeAddress bob) ].

(** bob holds 100 units vesting over 3 seconds from time 1000. *)
Definition s_three_seconds : State :=
  run s_listed [ (mkCtx deployer1 1000, call_mintWithVesting bob 100 3) ].

(** bob holds 40 plain units. *)
Definition s_bob_funded : State :=
  run s_listed [ (mkCtx deployer1 1000, call_mint bob 40) ].

(** The ledger of [s_vesting], paused by its owner. *)
Definition s_vesting_paused : State :=
  run s_vesting [ (mkCtx deployer1 1001, call_pause) ].

(** The ledger of [s_vesting] after bob was taken off the whitelist. *)
Definition s_vesting_unlisted : State :=
  run s_vesting [ (mkCtx deployer1 1001, call_removeFromWhitelist bob) ].

(** bob, whitelisted and under the schedule of [s_vesting], is frozen. *)
Definition s_vesting_frozen : State :=
  run s_vesting [ (mkCtx deployer1 1001, call_freezeAddress bob) ].

(** * Proofs *)

(** ** The result monad *)

Lemma bind_Ok {A B} (r : result A) (k : A -> result B) (b : B) :
  r ≫= k = Ok b -> exists a, r = Ok a /\ k a = Ok b.
Proof. destruct r as [a|e]; simpl; [eauto | discriminate]. Qed.

Lemma require_Ok (c : bool) (e : Error) (u : unit) :
  require c e = Ok u -> c = true.
Proof. destruct c; simpl; [reflexivity | discriminate]. Qed.

Lemma checked_add_Ok max a b r :
  checked_add max a b = Ok r -> r = a + b /\ a + b <= max.
Proof.
  unfold checked_add. destruct (Z.leb_spec (a + b) max); [|discriminate].
  intros [= <-]. auto.
Qed.

Lemma checked_add_fits max a b :
  a + b <= max -> checked_add max a b = Ok (a + b).
Proof.
  intros H. unfold checked_add. destruct (Z.leb_spec (a + b) max); [done | lia].
Qed.

Lemma checked_add_overflow max a b :
  max < a + b -> checked_add max a b = Revert PanicOverflow.
Proof.
  intros H. unfold checked_add. destruct (Z.leb_spec (a + b) max); [lia | done].
Qed.

Lemma checked_mul_fits max a b :
  a * b <= max -> checked_mul max a b = Ok (a * b).
Proof.
  intros H. unfold checked_mul. destruct (Z.leb_spec (a * b) max); [done | lia].
Qed.

Lemma checked_mul_overflow max a b :
  max < a * b -> checked_mul max a b = Revert PanicOverflow.
Proof.
  intros H. unfold checked_mul. destruct (Z.leb_spec (a * b) max); [lia | done].
Qed.

Lemma checked_sub_fits a b : b <= a -> checked_sub a b = Ok (a - b).
Proof.
  intros H. unfold checked_sub. destruct (Z.leb_spec b a); [done | lia].
Qed.

Lemma checked_div_pos a b : 0 < b -> checked_div a b = Ok (a / b).
Proof.
  intros H. unfold checked_div. destruct (Z.eqb_spec b 0); [lia | done].
Qed.

(** ** Reachability *)

Lemma reachable_run (s : State) (tr : list (Ctx * Call)) :
  reachable s -> Forall (fun x => wf_call (fst x) (snd x)) tr ->
  reachable (run s tr).
Proof.
  intros Hs Htr. revert s Hs.
  induction Htr as [|[c call] tr Hwf _ IH]; intros s Hs; simpl; [done|].
  apply IH. by apply reachable_step.
Qed.

Lemma is_uint256_dec_true (x : Z) :
  (0 <=? x) && (x <=? MAX_UINT256) = true -> is_uint256 x.
Proof. unfold is_uint256. lia. Qed.

Lemma is_uint64_dec_true (x : Z) :
  (0 <=? x) && (x <=? MAX_UINT64) = true -> is_uint64 x.
Proof. unfold is_uint64. lia. Qed.

Ltac solve_uint :=
  first [ apply is_uint256_dec_true; vm_compute; reflexivity
        | apply is_uint64_dec_true; vm_compute; reflexivity ].

Ltac solve_wf_call :=
  unfold wf_call; simpl; repeat split; first [ solve_uint | exact I ].

Ltac solve_reachable :=
  repeat first
    [ apply reachable_init
    | apply reachable_run; [| repeat constructor; solve_wf_call ] ].

Lemma reachable_s_listed : reachable s_listed.
Proof. unfold s_listed. solve_reachable. Qed.

Lemma reachable_s_vesting : reachable s_vesting.
Proof. unfold s_vesting. apply reachable_run; [apply reachable_s_listed|].
  repeat constructor; solve_wf_call. Qed.


Lemma reachable_s_huge : reachable s_huge.
Proof. unfold s_huge. apply reachable_run; [apply reachable_s_listed|].
  repeat constructor; solve_wf_call. Qed.

Lemma reachable_s_instant : reachable s_instant.
Proof. unfold s_instant. apply reachable_run; [apply reachable_s_listed|].
  repeat constructor; solve_wf_call. Qed.

Lemma reachable_s_frozen_unlisted : reachable s_frozen_unlisted.
Proof. unfold s_frozen_unlisted.
  apply reachable_run; [apply reachable_s_listed|].
  repeat constructor; solve_wf_call. Qed.

Lemma reachable_s_paused : reachable s_paused.
Proof. unfold s_paused. apply reachable_run; [apply reachable_s_listed|].
  repeat constructor; solve_wf_call. Qed.

(** ** The vesting curve *)

Section VestedAmount.
Variables (s : State) (h : address).
Let v := vestingOf s h.

Lemma vestedAmount_unscheduled t :
  total v = 0 -> vestedAmount s h t = Ok (balanceOf s h).
Proof.
  intros H. unfold vestedAmount. fold v. rewrite H. reflexivity.
Qed.

Lemma vestedAmount_before t :
  total v <> 0 -> t < start v -> vestedAmount s h t = Ok 0.
Proof.
  intros H Ht. unfold vestedAmount. fold v.
  destruct (Z.eqb_spec (total v) 0); [done|].
  destruct (Z.ltb_spec t (start v)); [done | lia].
Qed.

Lemma vestedAmount_end_overflow t :
  total v <> 0 -> start v <= t -> MAX_UINT64 < start v + duration v ->
  vestedAmount s h t = Revert PanicOverflow.
Proof.
  intros H Ht Ho. unfold vestedAmount. fold v.
  destruct (Z.eqb_spec (total v) 0); [done|].
  destruct (Z.ltb_spec t (start v)); [lia|].
  rewrite checked_add_overflow by done. reflexivity.
Qed.

Lemma vestedAmount_after t :
  total v <> 0 -> start v <= t -> start v + duration v <= MAX_UINT64 ->
  start v + duration v <= t -> vestedAmount s h t = Ok (total v).
Proof.
  intros H Ht Ho Hf. unfold vestedAmount. fold v.
  destruct (Z.eqb_spec (total v) 0); [done|].
  destruct (Z.ltb_spec t (start v)); [lia|].
  rewrite checked_add_fits by done. simpl.
  destruct (Z.geb_spec t (start v + duration v)); [done | lia].
Qed.

Lemma vestedAmount_during t :
  total v <> 0 -> start v <= t -> start v + duration v <= MAX_UINT64 ->
  t < start v + duration v ->
  vestedAmount s h t =
    checked_mul MAX_UINT256 (total v) (t - start v) ≫=
      fun prod => Ok (prod / duration v).
Proof.
  intros H Ht Ho Hf. unfold vestedAmount. fold v.
  destruct (Z.eqb_spec (total v) 0); [done|].
  destruct (Z.ltb_spec t (start v)); [lia|].
  rewrite checked_add_fits by done. simpl.
  destruct (Z.geb_spec t (start v + duration v)); [lia|].
  rewrite checked_sub_fits by done. simpl.
  destruct (checked_mul MAX_UINT256 (total v) (t - start v)); [|done].
  simpl. apply checked_div_pos. lia.
Qed.

Lemma vestedAmount_cases t :
  vestedAmount s h t = Ok (vested_piecewise (balanceOf s h) v t) \/
  vestedAmount s h t = Revert PanicOverflow.
Proof.
  unfold vested_piecewise.
  destruct (Z.eqb_spec (total v) 0) as [H0|H0].
  { left. by apply vestedAmount_unscheduled. }
  destruct (Z.ltb_spec t (start v)) as [Hb|Hb].
  { left. by apply vestedAmount_before. }
  destruct (Z.le_gt_cases (start v + duration v) MAX_UINT64) as [Ho|Ho];
    [| right; by apply vestedAmount_end_overflow].
  destruct (Z.leb_spec (start v + duration v) t) as [Hf|Hf].
  { left. by apply vestedAmount_after. }
  rewrite vestedAmount_during by done.
  destruct (Z.le_gt_cases (total v * (t - start v)) MAX_UINT256).
  - left. by rewrite checked_mul_fits.
  - right. by rewrite checked_mul_overflow.
Qed.

Lemma vested_piecewise_le_total bal t :
  0 < total v -> vested_piecewise bal v t <= total v.
Proof.
  intros Hpos. unfold vested_piecewise.
  destruct (Z.eqb_spec (total v) 0); [lia|].
  destruct (Z.ltb_spec t (start v)); [lia|].
  destruct (Z.leb_spec (start v + duration v) t); [lia|].
  apply Z.div_le_upper_bound; [lia|]. nia.
Qed.

Lemma vested_piecewise_mono bal t1 t2 :
  0 <= total v -> t1 <= t2 ->
  vested_piecewise bal v t1 <= vested_piecewise bal v t2.
Proof.
  intros Hpos Hle. unfold vested_piecewise.
  destruct (Z.eqb_spec (total v) 0); [lia|].
  destruct (Z.ltb_spec t1 (start v)) as [H1|H1].
  - destruct (Z.ltb_spec t2 (start v)); [lia|].
    destruct (Z.leb_spec (start v + duration v) t2); [lia|].
    apply Z.div_pos; nia.
  - destruct (Z.ltb_spec t2 (start v)); [lia|].
    destruct (Z.leb_spec (start v + duration v) t1) as [H2|H2];
      destruct (Z.leb_spec (start v + duration v) t2) as [H3|H3];
      try lia.
    + apply Z.div_le_upper_bound; [lia|]. nia.
    + apply Z.div_le_mono; [lia|]. nia.
Qed.
End VestedAmount.


(** C8: with the schedule fixed, the values [vestedAmount] returns at
    times [t1 <= t2] are ordered; and it does return at every time when
    [start + duration] fits 64 bits and [total * duration] fits 256. *)
Theorem vestedAmount_monotone (s : State) (h : address) (t1 t2 : Z) :
  0 <= total (vestingOf s h) -> t1 <= t2 ->
  (forall v1 v2,
     vestedAmount s h t1 = Ok v1 -> vestedAmount s h t2 = Ok v2 ->
     v1 <= v2) /\
  (start (vestingOf s h) + duration (vestingOf s h) <= MAX_UINT64 ->
   total (vestingOf s h) * duration (vestingOf s h) <= MAX_UINT256 ->
   exists v1 v2,
     vestedAmount s h t1 = Ok v1 /\ vestedAmount s h t2 = Ok v2 /\
     v1 <= v2).
Proof.
  intros Hpos Hle.
  assert (Hmono : forall v1 v2,
     vestedAmount s h t1 = Ok v1 -> vestedAmount s h t2 = Ok v2 ->
     v1 <= v2).
  { intros v1 v2 H1 H2.
    destruct (vestedAmount_cases s h t1) as [E1|E1]; [|congruence].
    destruct (vestedAmount_cases s h t2) as [E2|E2]; [|congruence].
    rewrite H1 in E1. rewrite H2 in E2.
    injection E1 as ->. injection E2 as ->.
    by apply vested_piecewise_mono. }
  split; [exact Hmono|].
  intros Ho Hm.
  assert (Hret : forall t, exists r, vestedAmount s h t = Ok r).
  { intros t. set (v := vestingOf s h) in *.
    destruct (Z.eq_dec (total v) 0) as [H0|H0].
    { eexists. by apply vestedAmount_unscheduled. }
    destruct (Z.lt_ge_cases t (start v)) as [Hb|Hb].
    { eexists. by apply vestedAmount_before. }
    destruct (Z.le_gt_cases (start v + duration v) t) as [Hf|Hf].
    { eexists. by apply vestedAmount_after. }
    rewrite vestedAmount_during by done. fold v.
    rewrite checked_mul_fits by nia. simpl. eauto. }
  destruct (Hret t1) as [v1 H1]. destruct (Hret t2) as [v2 H2].
  exists v1, v2. eauto.
Qed.

(** C10: [vestedAmount] never reverts with a division by zero; a schedule
    of duration zero is fully vested from [start] on (and yields 0
    before), so the query does not fail on it. *)
Theorem vestedAmount_no_div_by_zero (s : State) (h : address) (t : Z) :
  vestedAmount s h t <> Revert PanicDivZero /\
  (duration (vestingOf s h) = 0 -> 0 < total (vestingOf s h) ->
   is_uint64 (start (vestingOf s h)) ->
   (start (vestingOf s h) <= t ->
      vestedAmount s h t = Ok (total (vestingOf s h))) /\
   (t < start (vestingOf s h) -> vestedAmount s h t = Ok 0)).
Proof.
  split.
  - destruct (vestedAmount_cases s h t) as [E|E]; rewrite E; discriminate.
  - intros Hd Hpos [_ Hs]. split; intros Ht.
    + apply vestedAmount_after; lia.
    + apply vestedAmount_before; lia.
Qed.

(** ** The gate before every balance mutation *)

Lemma neq_zero_eqb (a : address) :
  a <> zero_address -> N.eqb a zero_address = false.
Proof. intros H. by apply N.eqb_neq. Qed.

Lemma onlyOwner_owner (s : State) (c : Ctx) :
  owner s = sender c -> onlyOwner s c = Ok tt.
Proof. intros H. unfold onlyOwner. by rewrite H, N.eqb_refl. Qed.

Lemma onlyOwner_other (s : State) (c : Ctx) :
  owner s <> sender c -> onlyOwner s c = Revert NotOwner.
Proof.
  intros H. unfold onlyOwner.
  by destruct (N.eqb_spec (owner s) (sender c)).
Qed.

Lemma before_paused (s : State) t from to amount :
  paused s = true ->
  _beforeTokenTransfer s t from to amount = Revert SystemPaused.
Proof.
  intros H. unfold _beforeTokenTransfer, whenNotPaused. by rewrite H.
Qed.

Lemma before_sender_frozen (s : State) t from to amount :
  paused s = false -> from <> zero_address -> isFrozen s from = true ->
  _beforeTokenTransfer s t from to amount = Revert SenderFrozen.
Proof.
  intros Hp Hf Hfr. unfold _beforeTokenTransfer, whenNotPaused.
  rewrite Hp, (neq_zero_eqb from), Hfr by done. reflexivity.
Qed.

Lemma before_sender_unlisted (s : State) t from to amount :
  paused s = false -> from <> zero_address -> isFrozen s from = false ->
  isWhitelisted s from = false ->
  _beforeTokenTransfer s t from to amount = Revert SenderNotWhitelisted.
Proof.
  intros Hp Hf Hfr Hw. unfold _beforeTokenTransfer, whenNotPaused.
  rewrite Hp, (neq_zero_eqb from), Hfr, Hw by done. reflexivity.
Qed.

Lemma before_sender_locked (s : State) t from to amount a :
  paused s = false -> from <> zero_address -> isFrozen s from = false ->
  isWhitelisted s from = true -> 0 < total (vestingOf s from) ->
  available s from t = Ok a -> a < amount ->
  _beforeTokenTransfer s t from to amount = Revert AmountLocked.
Proof.
  intros Hp Hf Hfr Hw Hv Ha Hlt. unfold _beforeTokenTransfer, whenNotPaused.
  rewrite Hp, (neq_zero_eqb from), Hfr, Hw by done. simpl.
  destruct (Z.ltb_spec 0 (total (vestingOf s from))); [|lia].
  rewrite Ha. simpl.
  by destruct (Z.leb_spec amount a); [lia|].
Qed.

(** The sender side passes and the receiver is the null address. *)
Lemma before_burn_pass (s : State) t from amount :
  paused s = false -> from <> zero_address -> isFrozen s from = false ->
  isWhitelisted s from = true ->
  (0 < total (vestingOf s from) ->
   exists a, available s from t = Ok a /\ amount <= a) ->
  _beforeTokenTransfer s t from zero_address amount = Ok tt.
Proof.
  intros Hp Hf Hfr Hw Ha. unfold _beforeTokenTransfer, whenNotPaused.
  rewrite Hp, (neq_zero_eqb from), Hfr, Hw by done. simpl.
  destruct (Z.ltb_spec 0 (total (vestingOf s from))) as [Hv|Hv]; [|done].
  destruct (Ha Hv) as (a & -> & Hle). simpl.
  by destruct (Z.leb_spec amount a); [|lia].
Qed.

(** What a passed gate establishes. *)
Lemma before_Ok (s : State) t from to amount u :
  _beforeTokenTransfer s t from to amount = Ok u ->
  paused s = false /\
  (from <> zero_address ->
     isFrozen s from = false /\ isWhitelisted s from = true /\
     (0 < total (vestingOf s from) ->
      exists a, available s from t = Ok a /\ amount <= a)) /\
  (to <> zero_address ->
     isFrozen s to = false /\ isWhitelisted s to = true).
Proof.
  unfold _beforeTokenTransfer, whenNotPaused. intros H.
  apply bind_Ok in H as (? & Hp & H). apply require_Ok in Hp.
  apply bind_Ok in H as (? & Hfrom & Hto).
  split; [by destruct (paused s)|]. split.
  - intros Hf. rewrite neq_zero_eqb in Hfrom by done. simpl in Hfrom.
    apply bind_Ok in Hfrom as (? & Hfr & Hfrom). apply require_Ok in Hfr.
    apply bind_Ok in Hfrom as (? & Hw & Hfrom). apply require_Ok in Hw.
    split; [by destruct (isFrozen s from)|]. split; [done|].
    intros Hv. destruct (Z.ltb_spec 0 (total (vestingOf s from))); [|lia].
    apply bind_Ok in Hfrom as (a & Ha & Hle). apply require_Ok in Hle.
    exists a. split; [done | lia].
  - intros Ht. rewrite neq_zero_eqb in Hto by done. simpl in Hto.
    apply bind_Ok in Hto as (? & Hfr & Hw).
    apply require_Ok in Hfr. apply require_Ok in Hw.
    split; [by destruct (isFrozen s to) | done].
Qed.

(** C3 (amended): the sender-side checks run in the order freeze, then
    whitelist, then (with a schedule) the lock check through
    [available]: a frozen sender is reported as "Sender frozen" whether or
    not it is whitelisted, "Sender not whitelisted" is reported only for a
    sender that is not frozen, and "Amount locked" only after both pass.
    In particular a transfer from a frozen sender fails with "Sender
    frozen" whatever the amount. *)
Theorem sender_checks_order (s : State) (t : Z) (from to : address)
    (amount : Z) :
  paused s = false -> from <> zero_address ->
  (isFrozen s from = true ->
     _beforeTokenTransfer s t from to amount = Revert SenderFrozen /\
     (to <> zero_address ->
      transfer s (mkCtx from t) to amount = Revert SenderFrozen)) /\
  (isFrozen s from = false -> isWhitelisted s from = false ->
     _beforeTokenTransfer s t from to amount = Revert SenderNotWhitelisted /\
     (to <> zero_address ->
      transfer s (mkCtx from t) to amount = Revert SenderNotWhitelisted)) /\
  (isFrozen s from = false -> isWhitelisted s from = true ->
   0 < total (vestingOf s from) ->
   forall a, available s from t = Ok a -> a < amount ->
     _beforeTokenTransfer s t from to amount = Revert AmountLocked /\
     (to <> zero_address ->
      transfer s (mkCtx from t) to amount = Revert AmountLocked)).
Proof.
  intros Hp Hf.
  assert (Htr : forall e, to <> zero_address ->
            _beforeTokenTransfer s t from to amount = Revert e ->
            transfer s (mkCtx from t) to amount = Revert e).
  { intros e Hto He. unfold transfer, _transfer. simpl.
    rewrite !neq_zero_eqb by done. simpl. by rewrite He. }
  repeat split.
  - by apply before_sender_frozen.
  - intros. by apply Htr, before_sender_frozen.
  - by apply before_sender_unlisted.
  - intros. by apply Htr, before_sender_unlisted.
  - by eapply before_sender_locked.
  - intros. by eapply Htr, before_sender_locked.
Qed.

(** C3, as stated, fails: a sender that is frozen and not whitelisted is
    reported as "Sender frozen", not as "Sender not whitelisted". *)
Lemma sender_checks_order_counterexample :
  ~ (forall (s : State) (c : Ctx) (to : address) (amount : Z),
       reachable s -> paused s = false ->
       sender c <> zero_address -> to <> zero_address ->
       isWhitelisted s (sender c) = false -> isFrozen s (sender c) = true ->
       transfer s c to amount = Revert SenderNotWhitelisted).
Proof.
  intros H.
  assert (E : transfer s_frozen_unlisted (mkCtx carol 1000) alice 0
              = Revert SenderNotWhitelisted).
  { apply H; [apply reachable_s_frozen_unlisted | by vm_compute ..]. }
  vm_compute in E. discriminate E.
Qed.

Lemma sender_checks_order_witness :
  transfer s_frozen_unlisted (mkCtx carol 1000) alice 0 = Revert SenderFrozen.
Proof.
  apply (sender_checks_order s_frozen_unlisted 1000 carol alice 0);
    by vm_compute.
Defined.

(** C2 (amended): while paused, a transfer between non-null addresses, an
    owner's burn from a non-null address, an owner's [mint] to a
    whitelisted non-null address and an owner's [mintWithVesting] to a
    whitelisted non-null address that has no schedule fail with
    "Pausable: paused" before any freeze, whitelist, lock or balance check
    of the gate.  But [mint] and [mintWithVesting] run their own checks
    before they reach the gate: also while paused, either to a
    non-whitelisted address fails with "Not whitelisted", and
    [mintWithVesting] to a whitelisted holder that has a schedule fails
    with "Vesting exists".  The owner's whitelist and freeze changes and
    [unpause] succeed while paused. *)
Theorem paused_blocks_balance_mutations (s : State) (c : Ctx) :
  paused s = true ->
  (forall to amount, sender c <> zero_address -> to <> zero_address ->
     transfer s c to amount = Revert SystemPaused) /\
  (owner s = sender c ->
   (forall from amount, from <> zero_address ->
      burn s c from amount = Revert SystemPaused) /\
   (forall to amount, to <> zero_address -> isWhitelisted s to = true ->
      mint s c to amount = Revert SystemPaused) /\
   (forall to amount dur, to <> zero_address -> isWhitelisted s to = true ->
      total (vestingOf s to) = 0 ->
      mintWithVesting s c to amount dur = Revert SystemPaused) /\
   (forall to amount dur, isWhitelisted s to = true ->
      total (vestingOf s to) <> 0 ->
      mintWithVesting s c to amount dur = Revert VestingExists) /\
   (forall to amount, isWhitelisted s to = false ->
      mint s c to amount = Revert NotWhitelisted /\
      forall dur, mintWithVesting s c to amount dur = Revert NotWhitelisted) /\
   (forall u,
      addToWhitelist s c u
        = Ok (emit (Whitelisted u) (set_whitelist u true s)) /\
      removeFromWhitelist s c u
        = Ok (emit (Unwhitelisted u) (set_whitelist u false s)) /\
      freezeAddress s c u = Ok (emit (Frozen u) (set_frozen u true s)) /\
      unfreezeAddress s c u
        = Ok (emit (Unfrozen u) (set_frozen u false s))) /\
   unpause s c = Ok (emit (Unpaused (sender c)) (set_paused false s))).
Proof.
  intros Hp. split.
  - intros to amount Hs Ht. unfold transfer, _transfer.
    rewrite !neq_zero_eqb by done. simpl. by rewrite before_paused.
  - intros Ho. pose proof (onlyOwner_owner s c Ho) as Hoo.
    repeat split.
    + intros from amount Hf. unfold burn, _burn. rewrite Hoo. simpl.
      rewrite neq_zero_eqb by done. simpl. by rewrite before_paused.
    + intros to amount Ht Hw. unfold mint, _mint. rewrite Hoo, Hw. simpl.
      rewrite neq_zero_eqb by done. simpl. by rewrite before_paused.
    + intros to amount dur Ht Hw Hv. unfold mintWithVesting, _mint.
      rewrite Hoo, Hw, Hv. simpl.
      rewrite neq_zero_eqb by done. simpl. by rewrite before_paused.
    + intros to amount dur Hw Hv. unfold mintWithVesting.
      rewrite Hoo, Hw. simpl.
      by destruct (Z.eqb_spec (total (vestingOf s to)) 0).
    + unfold mint. by rewrite Hoo, H.
    + intros dur. unfold mintWithVesting. by rewrite Hoo, H.
    + unfold addToWhitelist. by rewrite Hoo.
    + unfold removeFromWhitelist. by rewrite Hoo.
    + unfold freezeAddress. by rewrite Hoo.
    + unfold unfreezeAddress. by rewrite Hoo.
    + unfold unpause, whenPaused. by rewrite Hoo, Hp.
Qed.

(** C2, as stated, fails: the owner's mint to a non-whitelisted address
    while paused is rejected with "Not whitelisted", not "Pausable:
    paused". *)
Lemma paused_blocks_balance_mutations_counterexample :
  ~ (forall (s : State) (c : Ctx) (to : address) (amount : Z),
       reachable s -> paused s = true -> owner s = sender c ->
       to <> zero_address -> is_uint256 amount ->
       mint s c to amount = Revert SystemPaused).
Proof.
  intros H.
  assert (E : mint s_paused (mkCtx deployer1 1000) carol 1
              = Revert SystemPaused).
  { apply H; [apply reachable_s_paused | by vm_compute .. | solve_uint]. }
  vm_compute in E. discriminate E.
Qed.

Lemma paused_blocks_balance_mutations_witness :
  transfer s_paused (mkCtx alice 1000) bob 1 = Revert SystemPaused /\
  mint s_paused (mkCtx deployer1 1000) carol 1 = Revert NotWhitelisted /\
  mintWithVesting s_paused (mkCtx deployer1 1000) bob 5 10
    = Revert SystemPaused /\
  mintWithVesting s_vesting_paused (mkCtx deployer1 1002) bob 5 10
    = Revert VestingExists /\
  paused s_paused = true /\ paused s_vesting_paused = true.
Proof.
  pose proof (paused_blocks_balance_mutations s_paused
                (mkCtx alice 1000) eq_refl) as [Ht _].
  pose proof (paused_blocks_balance_mutations s_paused
                (mkCtx deployer1 1000) eq_refl) as [_ Hown].
  pose proof (paused_blocks_balance_mutations s_vesting_paused
                (mkCtx deployer1 1002) eq_refl) as [_ Hown'].
  destruct (Hown eq_refl) as (_ & _ & Hfresh & _ & Hm & _).
  destruct (Hown' eq_refl) as (_ & _ & _ & Hsched & _).
  split; [apply Ht; by vm_compute|].
  split; [apply Hm; by vm_compute|].
  split; [apply Hfresh; by vm_compute|].
  split; [apply Hsched; by vm_compute|].
  split; reflexivity.
Defined.

(** ** Sums over the balance mapping *)

Lemma sum_map_empty : sum_map ∅ = 0.
Proof. unfold sum_map. by rewrite map_fold_empty. Qed.

Lemma sum_map_insert_fresh (m : gmap N Z) (k : N) (x : Z) :
  m !! k = None -> sum_map (<[k := x]> m) = x + sum_map m.
Proof.
  intros H. unfold sum_map. rewrite map_fold_insert_L; [done | | done].
  intros. lia.
Qed.

Lemma sum_map_delete (m : gmap N Z) (k : N) (x : Z) :
  m !! k = Some x -> sum_map m = x + sum_map (delete k m).
Proof.
  intros H. unfold sum_map. rewrite (map_fold_delete_L _ _ k x m); [done | | done].
  intros. lia.
Qed.

Lemma sum_map_insert (m : gmap N Z) (k : N) (x : Z) :
  sum_map (<[k := x]> m) = sum_map m - default 0 (m !! k) + x.
Proof.
  destruct (m !! k) as [y|] eqn:E; simpl.
  - rewrite <- insert_delete_eq.
    rewrite sum_map_insert_fresh by apply lookup_delete_eq.
    rewrite (sum_map_delete m k y E). lia.
  - rewrite sum_map_insert_fresh by done. lia.
Qed.

Lemma sum_map_nonneg (m : gmap N Z) :
  map_Forall (fun _ b => 0 <= b) m -> 0 <= sum_map m.
Proof.
  induction m as [|k x m Hk IH] using map_ind; intros H.
  - by rewrite sum_map_empty.
  - rewrite sum_map_insert_fresh by done.
    apply map_Forall_insert in H as [Hx Hm]; [|done].
    specialize (IH Hm). lia.
Qed.

Lemma sum_map_lookup_le (m : gmap N Z) (k : N) :
  map_Forall (fun _ b => 0 <= b) m ->
  0 <= default 0 (m !! k) <= sum_map m.
Proof.
  intros H. destruct (m !! k) as [x|] eqn:E; simpl.
  - pose proof (H k x E) as Hx. simpl in Hx.
    rewrite (sum_map_delete m k x E).
    assert (0 <= sum_map (delete k m)); [|lia].
    apply sum_map_nonneg. intros j y Hj.
    apply lookup_delete_Some in Hj as [_ Hj]. by apply (H j y).
  - split; [lia | by apply sum_map_nonneg].
Qed.

Lemma balance_bounds (s : State) (a : address) :
  core_inv s -> 0 <= balanceOf s a <= totalSupply s.
Proof.
  intros [Hb Hs _ _]. rewrite Hs. unfold balanceOf, sum_balances.
  by apply sum_map_lookup_le.
Qed.

Lemma wrap256_small (x : Z) : 0 <= x <= MAX_UINT256 -> wrap256 x = x.
Proof.
  intros H. unfold wrap256. apply Z.mod_small.
  unfold MAX_UINT256 in H. lia.
Qed.

(** ** Storage reads after writes *)

Lemma balanceOf_set_balance_eq (s : State) a x :
  balanceOf (set_balance a x s) a = x.
Proof. unfold balanceOf. simpl. by rewrite lookup_insert_eq. Qed.

Lemma balanceOf_set_balance_ne (s : State) a b x :
  a <> b -> balanceOf (set_balance a x s) b = balanceOf s b.
Proof. intros H. unfold balanceOf. simpl. by rewrite lookup_insert_ne. Qed.

Lemma vestingOf_set_vesting_eq (s : State) a v :
  vestingOf (set_vesting a v s) a = v.
Proof. unfold vestingOf. simpl. by rewrite lookup_insert_eq. Qed.

Lemma vestingOf_set_vesting_ne (s : State) a b v :
  a <> b -> vestingOf (set_vesting a v s) b = vestingOf s b.
Proof. intros H. unfold vestingOf. simpl. by rewrite lookup_insert_ne. Qed.

Lemma sum_balances_set_balance (s : State) a x :
  sum_balances (set_balance a x s) = sum_balances s - balanceOf s a + x.
Proof. unfold sum_balances, balanceOf. simpl. apply sum_map_insert. Qed.

Lemma minted_in_app (l1 l2 : list Event) :
  minted_in (l1 ++ l2) = minted_in l1 + minted_in l2.
Proof. unfold minted_in. induction l1 as [|x l IH]; simpl; lia. Qed.

Lemma burned_in_app (l1 l2 : list Event) :
  burned_in (l1 ++ l2) = burned_in l1 + burned_in l2.
Proof. unfold burned_in. induction l1 as [|x l IH]; simpl; lia. Qed.

Lemma total_minted_emit (s : State) e :
  total_minted (emit e s) = total_minted s + minted_of e.
Proof.
  unfold total_minted. simpl. rewrite minted_in_app. simpl. lia.
Qed.

Lemma total_burned_emit (s : State) e :
  total_burned (emit e s) = total_burned s + burned_of e.
Proof.
  unfold total_burned. simpl. rewrite burned_in_app. simpl. lia.
Qed.

Ltac solve_audit :=
  unfold audit_inv, total_minted, total_burned in *; simpl;
  rewrite ?minted_in_app, ?burned_in_app; simpl; lia.

(** ** What the settlement hook does *)

Lemma after_mint (s : State) to amount :
  _afterTokenTransfer s zero_address to amount = Ok s.
Proof. reflexivity. Qed.

Lemma after_unscheduled (s : State) from to amount :
  total (vestingOf s from) <= 0 ->
  _afterTokenTransfer s from to amount = Ok s.
Proof.
  intros H. unfold _afterTokenTransfer.
  destruct (Z.ltb_spec 0 (total (vestingOf s from))); [lia|].
  by rewrite andb_false_r.
Qed.

Lemma after_scheduled (s : State) from to amount :
  from <> zero_address -> 0 < total (vestingOf s from) ->
  _afterTokenTransfer s from to amount =
    checked_add MAX_UINT256 (released (vestingOf s from)) amount ≫=
      fun _ => Ok (set_vesting from (clamp_released (vestingOf s from) amount) s).
Proof.
  intros Hf Hv. unfold _afterTokenTransfer.
  rewrite neq_zero_eqb by done.
  destruct (Z.ltb_spec 0 (total (vestingOf s from))); [|lia]. simpl.
  unfold checked_add.
  destruct (Z.leb_spec (released (vestingOf s from) + amount) MAX_UINT256);
    [|done].
  simpl. f_equal. f_equal. unfold clamp_released.
  destruct (Z.ltb_spec (total (vestingOf s from))
              (released (vestingOf s from) + amount)).
  - rewrite Z.min_r by lia. reflexivity.
  - rewrite Z.min_l by lia. reflexivity.
Qed.

Lemma after_Ok (s s' : State) from to amount :
  _afterTokenTransfer s from to amount = Ok s' ->
  s' = s /\ (from = zero_address \/ total (vestingOf s from) <= 0) \/
  s' = set_vesting from (clamp_released (vestingOf s from) amount) s /\
    from <> zero_address /\ 0 < total (vestingOf s from).
Proof.
  intros H. destruct (N.eq_dec from zero_address) as [->|Hf].
  { rewrite after_mint in H. injection H as <-. auto. }
  destruct (Z.le_gt_cases (total (vestingOf s from)) 0) as [Hv|Hv].
  { rewrite after_unscheduled in H by done. injection H as <-. auto. }
  rewrite after_scheduled in H by done.
  apply bind_Ok in H as (r & _ & H). injection H as <-. right. auto.
Qed.

Lemma wf_vesting_clamp (v : Vesting) (amount : Z) :
  wf_vesting v -> 0 <= amount -> wf_vesting (clamp_released v amount).
Proof.
  unfold wf_vesting, clamp_released, is_uint64. simpl. lia.
Qed.

Lemma core_inv_after (s s' : State) from to amount :
  core_inv s -> 0 <= amount ->
  _afterTokenTransfer s from to amount = Ok s' ->
  core_inv s' /\ totalSupply s' = totalSupply s /\
  balances s' = balances s /\ events s' = events s.
Proof.
  intros [Hb Hs Hm Hv] Ha H.
  apply after_Ok in H as [[-> _]|(-> & Hf & Hpos)]; [done|].
  split; [|done]. constructor; try done.
  intros a. destruct (N.eq_dec from a) as [<-|Hne].
  - rewrite vestingOf_set_vesting_eq. by apply wf_vesting_clamp.
  - rewrite vestingOf_set_vesting_ne by done. apply Hv.
Qed.

(** ** What the ERC20 internals do *)

Lemma _mint_Ok (s s' : State) t a amount :
  _mint s t a amount = Ok s' ->
  a <> zero_address /\ paused s = false /\
  isFrozen s a = false /\ isWhitelisted s a = true /\
  totalSupply s + amount <= MAX_UINT256 /\
  s' = emit (Transfer zero_address a amount)
         (set_balance a (wrap256 (balanceOf s a + amount))
            (set_totalSupply (totalSupply s + amount) s)).
Proof.
  unfold _mint. intros H.
  apply bind_Ok in H as (? & Hz & H). apply require_Ok in Hz.
  apply bind_Ok in H as (? & Hg & H).
  apply bind_Ok in H as (ts & Hts & H).
  apply checked_add_Ok in Hts as [-> Hts].
  rewrite after_mint in H. injection H as <-.
  assert (Ha : a <> zero_address).
  { intros ->. discriminate Hz. }
  apply before_Ok in Hg as (Hp & _ & Hto).
  destruct (Hto Ha) as [Hfr Hw]. done.
Qed.

Lemma _mint_pass (s : State) t a amount :
  a <> zero_address -> paused s = false ->
  isFrozen s a = false -> isWhitelisted s a = true ->
  totalSupply s + amount <= MAX_UINT256 ->
  _mint s t a amount =
    Ok (emit (Transfer zero_address a amount)
         (set_balance a (wrap256 (balanceOf s a + amount))
            (set_totalSupply (totalSupply s + amount) s))).
Proof.
  intros Ha Hp Hfr Hw Hts. unfold _mint, _beforeTokenTransfer, whenNotPaused.
  rewrite neq_zero_eqb, Hp, Hfr, Hw by done. simpl.
  by rewrite checked_add_fits.
Qed.

Lemma core_inv_minted (s : State) a amount :
  core_inv s -> 0 <= amount -> totalSupply s + amount <= MAX_UINT256 ->
  core_inv (emit (Transfer zero_address a amount)
             (set_balance a (wrap256 (balanceOf s a + amount))
                (set_totalSupply (totalSupply s + amount) s))).
Proof.
  intros Hinv Ha Hts. pose proof (balance_bounds s a Hinv) as Hbal.
  destruct Hinv as [Hb Hs Hm Hv].
  rewrite wrap256_small by lia.
  constructor; simpl.
  - apply map_Forall_insert_2; [lia | done].
  - change (totalSupply s + amount =
            sum_balances (set_balance a (balanceOf s a + amount) s)).
    rewrite sum_balances_set_balance. lia.
  - done.
  - done.
Qed.

Lemma _burn_Ok (s s' : State) t a amount :
  _burn s t a amount = Ok s' ->
  a <> zero_address /\ paused s = false /\
  isFrozen s a = false /\ isWhitelisted s a = true /\
  (0 < total (vestingOf s a) ->
   exists av, available s a t = Ok av /\ amount <= av) /\
  amount <= balanceOf s a /\
  _afterTokenTransfer
    (emit (Transfer a zero_address amount)
       (set_totalSupply (wrap256 (totalSupply s - amount))
          (set_balance a (wrap256 (balanceOf s a - amount)) s)))
    a zero_address amount = Ok s'.
Proof.
  unfold _burn. intros H.
  apply bind_Ok in H as (? & Hz & H). apply require_Ok in Hz.
  apply bind_Ok in H as (? & Hg & H).
  apply bind_Ok in H as (? & Hbal & H). apply require_Ok in Hbal.
  assert (Ha : a <> zero_address).
  { intros ->. discriminate Hz. }
  apply before_Ok in Hg as (Hp & Hfrom & _).
  destruct (Hfrom Ha) as (Hfr & Hw & Hav).
  repeat split; try done. lia.
Qed.

Lemma core_inv_burned (s : State) a amount :
  core_inv s -> 0 <= amount <= balanceOf s a ->
  core_inv (emit (Transfer a zero_address amount)
              (set_totalSupply (wrap256 (totalSupply s - amount))
                 (set_balance a (wrap256 (balanceOf s a - amount)) s))) /\
  wrap256 (totalSupply s - amount) = totalSupply s - amount /\
  wrap256 (balanceOf s a - amount) = balanceOf s a - amount.
Proof.
  intros Hinv Ha. pose proof (balance_bounds s a Hinv) as Hbal.
  destruct Hinv as [Hb Hs Hm Hv].
  rewrite !wrap256_small by lia.
  split; [|done]. constructor; simpl.
  - apply map_Forall_insert_2; [lia | done].
  - change (totalSupply s - amount =
            sum_balances (set_balance a (balanceOf s a - amount) s)).
    rewrite sum_balances_set_balance. lia.
  - lia.
  - done.
Qed.

Lemma _transfer_Ok (s s' : State) t from to amount :
  _transfer s t from to amount = Ok s' ->
  from <> zero_address /\ to <> zero_address /\ paused s = false /\
  isFrozen s from = false /\ isWhitelisted s from = true /\
  isFrozen s to = false /\ isWhitelisted s to = true /\
  (0 < total (vestingOf s from) ->
   exists av, available s from t = Ok av /\ amount <= av) /\
  amount <= balanceOf s from /\
  _afterTokenTransfer
    (emit (Transfer from to amount)
       (set_balance to
          (wrap256
             (balanceOf
                (set_balance from (wrap256 (balanceOf s from - amount)) s)
                to + amount))
          (set_balance from (wrap256 (balanceOf s from - amount)) s)))
    from to amount = Ok s'.
Proof.
  unfold _transfer. intros H.
  apply bind_Ok in H as (? & Hzf & H). apply require_Ok in Hzf.
  apply bind_Ok in H as (? & Hzt & H). apply require_Ok in Hzt.
  apply bind_Ok in H as (? & Hg & H).
  apply bind_Ok in H as (? & Hbal & H). apply require_Ok in Hbal.
  assert (Hf : from <> zero_address).
  { intros ->. discriminate Hzf. }
  assert (Ht : to <> zero_address).
  { intros ->. discriminate Hzt. }
  apply before_Ok in Hg as (Hp & Hfrom & Hto).
  destruct (Hfrom Hf) as (Hfr & Hw & Hav).
  destruct (Hto Ht) as (Hfr' & Hw').
  repeat split; try done. lia.
Qed.

Lemma core_inv_transferred (s : State) from to amount :
  core_inv s -> 0 <= amount <= balanceOf s from ->
  core_inv
    (emit (Transfer from to amount)
       (set_balance to
          (wrap256
             (balanceOf
                (set_balance from (wrap256 (balanceOf s from - amount)) s)
                to + amount))
          (set_balance from (wrap256 (balanceOf s from - amount)) s))).
Proof.
  intros Hinv Ha. pose proof (balance_bounds s from Hinv) as Hbal.
  destruct Hinv as [Hb Hs Hm Hv].
  rewrite (wrap256_small (balanceOf s from - amount)) by lia.
  set (s1 := set_balance from (balanceOf s from - amount) s).
  assert (Hb1 : map_Forall (fun _ b => 0 <= b) (balances s1)).
  { simpl. apply map_Forall_insert_2; [lia | done]. }
  assert (Hs1 : sum_balances s1 = totalSupply s - amount).
  { unfold s1. rewrite sum_balances_set_balance. lia. }
  pose proof (sum_map_lookup_le (balances s1) to Hb1) as Hto.
  change (0 <= balanceOf s1 to <= sum_balances s1) in Hto.
  rewrite wrap256_small by lia.
  constructor; simpl.
  - apply map_Forall_insert_2; [lia | done].
  - change (totalSupply s =
            sum_balances (set_balance to (balanceOf s1 to + amount) s1)).
    rewrite sum_balances_set_balance. lia.
  - done.
  - done.
Qed.

(** ** The invariant holds in every reachable state *)

Lemma core_inv_same_ledger (s s' : State) :
  balances s' = balances s -> totalSupply s' = totalSupply s ->
  vesting s' = vesting s -> core_inv s -> core_inv s'.
Proof.
  intros Eb Et Ev [Hb Hs Hm Hv]. constructor.
  - by rewrite Eb.
  - unfold sum_balances. by rewrite Eb, Et.
  - by rewrite Et.
  - intros a. unfold vestingOf. rewrite Ev. apply Hv.
Qed.

Lemma audit_inv_same_log (s s' : State) :
  totalSupply s' = totalSupply s -> events s' = events s ->
  audit_inv s -> audit_inv s'.
Proof.
  unfold audit_inv, total_minted, total_burned. by intros -> ->.
Qed.

Lemma audit_inv_emit (s : State) (e : Event) :
  totalSupply s + minted_of e - burned_of e = totalSupply s ->
  audit_inv s -> audit_inv (emit e s).
Proof.
  unfold audit_inv. rewrite total_minted_emit, total_burned_emit. simpl. lia.
Qed.

Lemma ledger_inv_initialize (deployer : address) :
  ledger_inv (initialize deployer).
Proof.
  split.
  - constructor; simpl.
    + apply map_Forall_empty.
    + by rewrite <- sum_map_empty.
    + unfold MAX_UINT256. lia.
    + intros a. unfold vestingOf. simpl. rewrite lookup_empty. simpl.
      unfold wf_vesting, is_uint64, MAX_UINT256, MAX_UINT64. simpl. lia.
  - reflexivity.
Qed.

Lemma ledger_inv_admin (s s' : State) (e : Event) :
  balances s' = balances s -> totalSupply s' = totalSupply s ->
  vesting s' = vesting s -> events s' = events s ->
  minted_of e = 0 -> burned_of e = 0 ->
  ledger_inv s -> ledger_inv (emit e s').
Proof.
  intros Eb Et Ev Ee Hm Hbu [Hc Ha]. split.
  - apply (core_inv_same_ledger s'); try done.
    by apply (core_inv_same_ledger s).
  - apply audit_inv_emit; [lia|]. by apply (audit_inv_same_log s).
Qed.

Lemma mint_Ok (s s' : State) (c : Ctx) to amount :
  mint s c to amount = Ok s' ->
  owner s = sender c /\
  exists s1, _mint s (timestamp c) to amount = Ok s1 /\
             s' = emit (Minted to amount) s1.
Proof.
  unfold mint. intros H.
  apply bind_Ok in H as (? & Ho & H). apply require_Ok in Ho.
  apply bind_Ok in H as (? & _ & H).
  apply bind_Ok in H as (s1 & H1 & H). injection H as <-.
  split; [by apply N.eqb_eq | eauto].
Qed.

Lemma mintWithVesting_Ok (s s' : State) (c : Ctx) to amount dur :
  mintWithVesting s c to amount dur = Ok s' ->
  owner s = sender c /\ total (vestingOf s to) = 0 /\
  exists s1, _mint s (timestamp c) to amount = Ok s1 /\
    s' = emit (VestingCreated to amount (to_uint64 (timestamp c)) dur)
           (emit (MintedWithVesting to amount dur)
              (set_vesting to
                 (mkVesting amount 0 (to_uint64 (timestamp c)) dur) s1)).
Proof.
  unfold mintWithVesting. intros H.
  apply bind_Ok in H as (? & Ho & H). apply require_Ok in Ho.
  apply bind_Ok in H as (? & _ & H).
  apply bind_Ok in H as (? & Hv & H). apply require_Ok in Hv.
  apply bind_Ok in H as (s1 & H1 & H). injection H as <-.
  split; [by apply N.eqb_eq|]. split; [lia | eauto].
Qed.

Lemma burn_Ok (s s' : State) (c : Ctx) from amount :
  burn s c from amount = Ok s' ->
  owner s = sender c /\
  exists s1, _burn s (timestamp c) from amount = Ok s1 /\
             s' = emit (Burned from amount) s1.
Proof.
  unfold burn. intros H.
  apply bind_Ok in H as (? & Ho & H). apply require_Ok in Ho.
  apply bind_Ok in H as (s1 & H1 & H). injection H as <-.
  split; [by apply N.eqb_eq | eauto].
Qed.

Lemma admin_Ok (s s' s1 : State) (c : Ctx) :
  onlyOwner s c ≫= (fun _ => Ok s1) = Ok s' -> s' = s1.
Proof.
  intros H. apply bind_Ok in H as (? & _ & H). by injection H.
Qed.

Lemma to_uint64_range (x : Z) : is_uint64 (to_uint64 x).
Proof.
  unfold is_uint64, to_uint64, MAX_UINT64.
  pose proof (Z.mod_pos_bound x (2 ^ 64)). lia.
Qed.

Lemma ledger_inv_exec (s s' : State) (c : Ctx) (call : Call) :
  ledger_inv s -> wf_call c call -> exec s c call = Ok s' -> ledger_inv s'.
Proof.
  intros Hinv [Ht Hwf] H. destruct call; simpl in H.
  - apply admin_Ok in H as ->. by apply (ledger_inv_admin s).
  - apply admin_Ok in H as ->. by apply (ledger_inv_admin s).
  - apply admin_Ok in H as ->. by apply (ledger_inv_admin s).
  - apply admin_Ok in H as ->. by apply (ledger_inv_admin s).
  - unfold pause in H. apply bind_Ok in H as (? & _ & H).
    apply bind_Ok in H as (? & _ & H). injection H as <-.
    by apply (ledger_inv_admin s).
  - unfold unpause in H. apply bind_Ok in H as (? & _ & H).
    apply bind_Ok in H as (? & _ & H). injection H as <-.
    by apply (ledger_inv_admin s).
  - (* mint *)
    apply mint_Ok in H as (_ & s1 & H1 & ->).
    apply _mint_Ok in H1 as (_ & _ & _ & _ & Hts & ->).
    destruct Hinv as [Hc Ha]. destruct Hwf as [Hlo _]. split.
    + eapply core_inv_same_ledger; [..| by apply core_inv_minted]; done.
    + solve_audit.
  - (* mintWithVesting *)
    apply mintWithVesting_Ok in H as (_ & _ & s1 & H1 & ->).
    apply _mint_Ok in H1 as (_ & _ & _ & _ & Hts & ->).
    destruct Hinv as [Hc Ha]. destruct Hwf as [[Hlo Hhi] Hdur]. split.
    + pose proof (core_inv_minted s to amount Hc Hlo Hts) as [Hb Hs Hm Hv].
      constructor; try done.
      intros a. destruct (N.eq_dec to a) as [<-|Hne].
      * unfold vestingOf. simpl. rewrite lookup_insert_eq. simpl.
        unfold wf_vesting. simpl.
        pose proof (to_uint64_range (timestamp c)).
        unfold is_uint64 in *. lia.
      * unfold vestingOf. simpl. rewrite lookup_insert_ne by done.
        apply (inv_vesting s Hc a).
    + solve_audit.
  - (* burn *)
    apply burn_Ok in H as (_ & s1 & H1 & ->).
    apply _burn_Ok in H1 as (_ & _ & _ & _ & _ & Hbal & Hafter).
    destruct Hinv as [Hc Ha]. destruct Hwf as [Hlo _].
    destruct (core_inv_burned s from amount Hc (conj Hlo Hbal))
      as (Hc3 & Ets & _).
    destruct (core_inv_after _ _ _ _ _ Hc3 Hlo Hafter)
      as (Hc1 & Et1 & _ & Ee1).
    split.
    + by eapply core_inv_same_ledger; [..| exact Hc1].
    + unfold audit_inv, total_minted, total_burned in *. simpl.
      rewrite Et1, Ee1. simpl. rewrite Ets. solve_audit.
  - (* transfer *)
    unfold transfer in H.
    apply _transfer_Ok in H
      as (_ & _ & _ & _ & _ & _ & _ & _ & Hbal & Hafter).
    destruct Hinv as [Hc Ha].
    pose proof (core_inv_transferred s (sender c) to amount Hc
                  (conj (proj1 Hwf) Hbal)) as Hc3.
    destruct (core_inv_after _ _ _ _ _ Hc3 (proj1 Hwf) Hafter)
      as (Hc1 & Et1 & _ & Ee1).
    split; [done|].
    unfold audit_inv, total_minted, total_burned in *.
    rewrite Et1, Ee1. solve_audit.
Qed.

Lemma ledger_inv_step (s : State) (c : Ctx) (call : Call) :
  ledger_inv s -> wf_call c call -> ledger_inv (step s c call).
Proof.
  intros Hinv Hwf. unfold step.
  destruct (exec s c call) as [s'|e] eqn:E; [|done].
  by eapply ledger_inv_exec.
Qed.

Lemma reachable_ledger_inv (s : State) : reachable s -> ledger_inv s.
Proof.
  induction 1 as [d | s c call _ IH Hwf].
  - apply ledger_inv_initialize.
  - by apply ledger_inv_step.
Qed.

(** C4: in every state reachable from initialization, [totalSupply] is
    the sum of all balances and equals the units minted less the units
    burned, as the log of [Minted], [MintedWithVesting] and [Burned]
    events records them. *)
Theorem supply_invariant (s : State) :
  reachable s ->
  totalSupply s = sum_balances s /\
  totalSupply s = total_minted s - total_burned s.
Proof.
  intros Hr. destruct (reachable_ledger_inv s Hr) as [Hc Ha].
  split; [apply (inv_supply s Hc) | exact Ha].
Qed.

Lemma supply_invariant_witness :
  totalSupply s_vesting = sum_balances s_vesting /\
  totalSupply s_vesting = total_minted s_vesting - total_burned s_vesting.
Proof. apply (supply_invariant s_vesting), reachable_s_vesting. Defined.

(** ** The lock check bounds what the settlement hook adds *)

Lemma available_Ok (s : State) (h : address) (t a : Z) :
  total (vestingOf s h) <> 0 -> available s h t = Ok a ->
  vestedAmount s h t
    = Ok (vested_piecewise (balanceOf s h) (vestingOf s h) t) /\
  a = Z.max 0 (vested_piecewise (balanceOf s h) (vestingOf s h) t
               - released (vestingOf s h)).
Proof.
  intros Hv H. unfold available in H.
  destruct (Z.eqb_spec (total (vestingOf s h)) 0); [done|].
  apply bind_Ok in H as (vested & Hvest & H).
  destruct (vestedAmount_cases s h t) as [E|E]; [|congruence].
  split; [done|]. rewrite E in Hvest. injection Hvest as <-.
  destruct (Z.leb_spec
              (vested_piecewise (balanceOf s h) (vestingOf s h) t)
              (released (vestingOf s h))); injection H as <-; lia.
Qed.

Lemma available_le_total (s : State) (h : address) (t a : Z) :
  0 < total (vestingOf s h) -> 0 <= released (vestingOf s h) ->
  available s h t = Ok a ->
  0 <= a /\ a + released (vestingOf s h)
            <= Z.max (released (vestingOf s h)) (total (vestingOf s h)).
Proof.
  intros Hv Hr H. apply available_Ok in H as [_ ->]; [|lia].
  pose proof (vested_piecewise_le_total s h (balanceOf s h) t Hv). lia.
Qed.

Lemma gate_bounds_release (s : State) (h : address) (t a amount : Z) :
  wf_vesting (vestingOf s h) -> 0 < total (vestingOf s h) ->
  available s h t = Ok a -> 0 <= amount <= a ->
  released (vestingOf s h) + amount <= total (vestingOf s h) /\
  clamp_released (vestingOf s h) amount
    = set_released (released (vestingOf s h) + amount) (vestingOf s h).
Proof.
  intros (Hr & _) Hv Ha Hamt.
  pose proof (available_le_total s h t a Hv (proj1 Hr) Ha) as Hle.
  assert (released (vestingOf s h) + amount <= total (vestingOf s h)) by lia.
  split; [done|]. unfold clamp_released. by rewrite Z.min_l.
Qed.



(** ** Burning from a holder with a schedule *)

Lemma burn_pass (s : State) (c : Ctx) (from : address) (amount : Z) :
  owner s = sender c -> paused s = false -> from <> zero_address ->
  isFrozen s from = false -> isWhitelisted s from = true ->
  (0 < total (vestingOf s from) ->
   exists a, available s from (timestamp c) = Ok a /\ amount <= a) ->
  amount <= balanceOf s from ->
  burn s c from amount =
    _afterTokenTransfer
      (emit (Transfer from zero_address amount)
         (set_totalSupply (wrap256 (totalSupply s - amount))
            (set_balance from (wrap256 (balanceOf s from - amount)) s)))
      from zero_address amount ≫=
    fun s1 => Ok (emit (Burned from amount) s1).
Proof.
  intros Ho Hp Hf Hfr Hw Hav Hbal. unfold burn, _burn.
  rewrite onlyOwner_owner by done. simpl.
  rewrite neq_zero_eqb by done. simpl.
  rewrite before_burn_pass by done. simpl.
  destruct (Z.leb_spec amount (balanceOf s from)); [|lia]. reflexivity.
Qed.

(** C1 (amended): the owner's [burn] runs through the same gate as a
    transfer, so for a holder with a schedule it is gated by
    [available]: an amount above [available(from)] is rejected with
    "Amount locked" and changes nothing, even if the balance covers it.
    An amount within both [available(from)] and the balance is burned:
    balance and [totalSupply] decrease by it and [released] grows by
    it (sender whitelisted, not frozen, non-null; not paused). *)
Theorem burn_gated_by_available (s : State) (c : Ctx) (from : address)
    (amount a : Z) :
  owner s = sender c -> paused s = false -> from <> zero_address ->
  isFrozen s from = false -> isWhitelisted s from = true ->
  0 < total (vestingOf s from) ->
  available s from (timestamp c) = Ok a ->
  (a < amount ->
     burn s c from amount = Revert AmountLocked /\
     step s c (call_burn from amount) = s) /\
  (core_inv s -> 0 <= amount <= a -> amount <= balanceOf s from ->
   exists s',
     burn s c from amount = Ok s' /\
     balanceOf s' from = balanceOf s from - amount /\
     totalSupply s' = totalSupply s - amount /\
     released (vestingOf s' from) = released (vestingOf s from) + amount).
Proof.
  intros Ho Hp Hf Hfr Hw Hv Ha. split.
  - intros Hlt.
    assert (E : burn s c from amount = Revert AmountLocked).
    { unfold burn, _burn. rewrite onlyOwner_owner by done. simpl.
      rewrite neq_zero_eqb by done. simpl.
      by rewrite (before_sender_locked s _ from zero_address amount a). }
    split; [done|]. unfold step. simpl. by rewrite E.
  - intros Hc Hamt Hbal.
    assert (Hav : 0 < total (vestingOf s from) ->
              exists a0, available s from (timestamp c) = Ok a0 /\
                         amount <= a0).
    { intros _. exists a. split; [done | lia]. }
    rewrite burn_pass by done.
    destruct (core_inv_burned s from amount Hc) as (_ & Ets & Ebal); [lia|].
    rewrite Ets, Ebal.
    set (s3 := emit _ _).
    destruct (gate_bounds_release s from (timestamp c) a amount
                (inv_vesting s Hc from) Hv Ha Hamt) as [Hle Hclamp].
    destruct (inv_vesting s Hc from) as (_ & Hmax & _).
    change (vestingOf s from) with (vestingOf s3 from) in Hv, Hle, Hclamp, Hmax.
    rewrite after_scheduled by done.
    rewrite checked_add_fits by lia. simpl.
    eexists. split; [reflexivity|]. rewrite Hclamp. repeat split.
    + unfold balanceOf. simpl. by rewrite lookup_insert_eq.
    + unfold vestingOf. simpl. by rewrite lookup_insert_eq.
Qed.

(** C1, as stated, fails: one tenth into bob's schedule of 100 units the
    owner's burn of 20 of bob's 100 units is rejected. *)
Lemma burn_gated_by_available_counterexample :
  ~ (forall (s : State) (c : Ctx) (from : address) (amount : Z),
       reachable s -> is_uint256 (timestamp c) ->
       owner s = sender c -> paused s = false -> from <> zero_address ->
       isWhitelisted s from = true -> isFrozen s from = false ->
       0 < total (vestingOf s from) ->
       0 <= amount <= balanceOf s from ->
       exists s', burn s c from amount = Ok s').
Proof.
  intros H.
  destruct (H s_vesting (mkCtx deployer1 1010) bob 20) as [s' E];
    [apply reachable_s_vesting | solve_uint | by vm_compute ..|].
  vm_compute in E. discriminate E.
Qed.

Lemma burn_gated_by_available_witness :
  burn s_vesting (mkCtx deployer1 1010) bob 20 = Revert AmountLocked /\
  exists s',
    burn s_vesting (mkCtx deployer1 1010) bob 7 = Ok s' /\
    balanceOf s' bob = 93 /\ totalSupply s' = 93 /\
    released (vestingOf s' bob) = 7.
Proof.
  destruct (burn_gated_by_available s_vesting (mkCtx deployer1 1010) bob
              20 10) as [Hlocked _]; try by vm_compute.
  destruct (burn_gated_by_available s_vesting (mkCtx deployer1 1010) bob
              7 10) as [_ Hburned]; try by vm_compute.
  split; [apply Hlocked; lia|].
  apply Hburned; [| lia | by vm_compute].
  apply reachable_ledger_inv, reachable_s_vesting.
Defined.

(** ** One schedule per holder *)

(** C7 (amended): a [mintWithVesting] to a holder that has a schedule
    ([total] non-zero) always reverts, so balance, schedule and
    [totalSupply] stay as they were.  The reason is "Vesting exists" when
    the caller is the owner and the holder is whitelisted; the two checks
    that run first give "Ownable: caller is not the owner" for another
    caller and "Not whitelisted" for a holder that is no longer
    whitelisted.  In particular, right after a successful
    [mintWithVesting] of a non-zero amount a further one to that holder by
    the owner is rejected with "Vesting exists". *)
Theorem second_vesting_mint_rejected :
  (forall (s : State) (c : Ctx) (to : address) (amount dur : Z),
     total (vestingOf s to) <> 0 ->
     (exists e, mintWithVesting s c to amount dur = Revert e) /\
     step s c (call_mintWithVesting to amount dur) = s /\
     (owner s = sender c -> isWhitelisted s to = true ->
      mintWithVesting s c to amount dur = Revert VestingExists) /\
     (owner s <> sender c ->
      mintWithVesting s c to amount dur = Revert NotOwner) /\
     (owner s = sender c -> isWhitelisted s to = false ->
      mintWithVesting s c to amount dur = Revert NotWhitelisted)) /\
  (forall (s s1 : State) (c c' : Ctx) (to : address)
          (amount dur amount' dur' : Z),
     mintWithVesting s c to amount dur = Ok s1 -> amount <> 0 ->
     sender c' = sender c ->
     mintWithVesting s1 c' to amount' dur' = Revert VestingExists /\
     step s1 c' (call_mintWithVesting to amount' dur') = s1 /\
     balanceOf s1 to = wrap256 (balanceOf s to + amount) /\
     vestingOf s1 to = mkVesting amount 0 (to_uint64 (timestamp c)) dur).
Proof.
  assert (Hexists : forall s c to amount dur,
            total (vestingOf s to) <> 0 ->
            owner s = sender c -> isWhitelisted s to = true ->
            mintWithVesting s c to amount dur = Revert VestingExists).
  { intros s c to amount dur Hv Ho Hw. unfold mintWithVesting.
    rewrite onlyOwner_owner, Hw by done. simpl.
    by destruct (Z.eqb_spec (total (vestingOf s to)) 0). }
  assert (Hfails : forall s c to amount dur,
            total (vestingOf s to) <> 0 ->
            exists e, mintWithVesting s c to amount dur = Revert e).
  { intros s c to amount dur Hv.
    destruct (N.eq_dec (owner s) (sender c)) as [Ho|Ho].
    - destruct (isWhitelisted s to) eqn:Hw.
      + exists VestingExists. by apply Hexists.
      + exists NotWhitelisted. unfold mintWithVesting.
        by rewrite onlyOwner_owner, Hw.
    - exists NotOwner. unfold mintWithVesting.
      by rewrite onlyOwner_other. }
  split.
  - intros s c to amount dur Hv. split; [by apply Hfails|]. split.
    + unfold step. simpl.
      by destruct (Hfails s c to amount dur Hv) as [e ->].
    + split; [intros; by apply Hexists|]. split.
      * intros Ho. unfold mintWithVesting. by rewrite onlyOwner_other.
      * intros Ho Hw. unfold mintWithVesting.
        by rewrite onlyOwner_owner, Hw.
  - intros s s1 c c' to amount dur amount' dur' H Hamt Hc.
    apply mintWithVesting_Ok in H as (Ho & _ & s0 & H0 & ->).
    apply _mint_Ok in H0 as (_ & _ & _ & Hw & _ & ->).
    assert (E : mintWithVesting
                  (emit (VestingCreated to amount (to_uint64 (timestamp c)) dur)
                     (emit (MintedWithVesting to amount dur)
                        (set_vesting to
                           (mkVesting amount 0 (to_uint64 (timestamp c)) dur)
                           (emit (Transfer zero_address to amount)
                              (set_balance to
                                 (wrap256 (balanceOf s to + amount))
                                 (set_totalSupply (totalSupply s + amount)
                                    s))))))
                  c' to amount' dur' = Revert VestingExists).
    { apply Hexists.
      - unfold vestingOf. simpl. by rewrite lookup_insert_eq.
      - simpl. congruence.
      - exact Hw. }
    split; [exact E|]. split.
    + unfold step. simpl. by rewrite E.
    + split.
      * unfold balanceOf. simpl. by rewrite lookup_insert_eq.
      * unfold vestingOf. simpl. by rewrite lookup_insert_eq.
Qed.

(** C7, as stated, fails: once bob, who has a schedule, is taken off the
    whitelist, the owner's further [mintWithVesting] to bob is rejected
    with "Not whitelisted", not "Vesting exists". *)
Lemma second_vesting_mint_rejected_counterexample :
  ~ (forall (s : State) (c : Ctx) (to : address) (amount dur : Z),
       reachable s -> wf_call c (call_mintWithVesting to amount dur) ->
       owner s = sender c -> total (vestingOf s to) <> 0 ->
       mintWithVesting s c to amount dur = Revert VestingExists).
Proof.
  intros H.
  assert (E : mintWithVesting s_vesting_unlisted (mkCtx deployer1 1002)
                bob 5 10 = Revert VestingExists).
  { apply H.
    - unfold s_vesting_unlisted.
      apply reachable_run; [apply reachable_s_vesting|].
      repeat constructor; solve_wf_call.
    - solve_wf_call.
    - reflexivity.
    - by vm_compute. }
  vm_compute in E. discriminate E.
Qed.

Lemma second_vesting_mint_rejected_witness :
  mintWithVesting s_vesting (mkCtx deployer1 1001) bob 5 10
    = Revert VestingExists /\
  step s_vesting (mkCtx deployer1 1001) (call_mintWithVesting bob 5 10)
    = s_vesting /\
  mintWithVesting s_vesting_unlisted (mkCtx deployer1 1002) bob 5 10
    = Revert NotWhitelisted /\
  mintWithVesting s_vesting (mkCtx alice 1001) bob 5 10 = Revert NotOwner.
Proof.
  destruct second_vesting_mint_rejected as [H _].
  destruct (H s_vesting (mkCtx deployer1 1001) bob 5 10)
    as (_ & Hs & He & _); [by vm_compute|].
  destruct (H s_vesting_unlisted (mkCtx deployer1 1002) bob 5 10)
    as (_ & _ & _ & _ & Hwl); [by vm_compute|].
  destruct (H s_vesting (mkCtx alice 1001) bob 5 10)
    as (_ & _ & _ & Hno & _); [by vm_compute|].
  split; [apply He; by vm_compute|]. split; [exact Hs|].
  split; [apply Hwl; by vm_compute | apply Hno; by vm_compute].
Defined.

(** ** What a holder with a schedule can move out *)

Lemma set_released_id (v : Vesting) : set_released (released v + 0) v = v.
Proof. destruct v. unfold set_released. simpl. f_equal. lia. Qed.

Lemma vestedAmount_same_schedule (s s' : State) (h : address) (t : Z) :
  total (vestingOf s h) <> 0 ->
  total (vestingOf s' h) = total (vestingOf s h) ->
  start (vestingOf s' h) = start (vestingOf s h) ->
  duration (vestingOf s' h) = duration (vestingOf s h) ->
  vestedAmount s' h t = vestedAmount s h t.
Proof.
  intros Hv Et Es Ed. unfold vestedAmount. rewrite Et, Es, Ed.
  by destruct (Z.eqb_spec (total (vestingOf s h)) 0).
Qed.

Lemma available_same_schedule (s s' : State) (h : address) (t : Z) :
  total (vestingOf s h) <> 0 ->
  vestingOf s' h = vestingOf s h ->
  available s' h t = available s h t.
Proof.
  intros Hv E. unfold available.
  rewrite (vestedAmount_same_schedule s s' h t) by (by rewrite ?E).
  rewrite E. by destruct (Z.eqb_spec (total (vestingOf s h)) 0).
Qed.

(** The schedule of [h] after the settlement hook ran for sender [from]
    on an amount that passed the lock check. *)
Lemma after_schedule_of (s0 s s' : State) (h from to : address)
    (t amount : Z) :
  vesting s = vesting s0 ->
  (forall a, wf_vesting (vestingOf s0 a)) ->
  0 <= amount -> from <> zero_address ->
  (0 < total (vestingOf s0 from) ->
   exists a, available s0 from t = Ok a /\ amount <= a) ->
  _afterTokenTransfer s from to amount = Ok s' ->
  0 < total (vestingOf s0 h) ->
  vestingOf s' h =
    set_released
      (released (vestingOf s0 h) + (if N.eqb from h then amount else 0))
      (vestingOf s0 h).
Proof.
  intros Ev Hwf Hamt Hf Hgate H Hv.
  assert (Evo : forall a, vestingOf s a = vestingOf s0 a).
  { intros a. unfold vestingOf. by rewrite Ev. }
  apply after_Ok in H as [[-> [->|Hno]]|(-> & _ & Hpos)].
  - done.
  - rewrite Evo in *.
    destruct (N.eqb_spec from h) as [->|Hne]; [lia|].
    by rewrite set_released_id.
  - rewrite Evo in Hpos.
    destruct (N.eqb_spec from h) as [->|Hne].
    + rewrite vestingOf_set_vesting_eq, Evo.
      destruct (Hgate Hpos) as (a & Ha & Hle).
      by destruct (gate_bounds_release s0 h t a amount (Hwf h) Hv Ha)
        as [_ ->]; [lia|].
    + rewrite vestingOf_set_vesting_ne, Evo by done.
      by rewrite set_released_id.
Qed.

Lemma moved_out_exec (h : address) (s s' : State) (c : Ctx) (call : Call) :
  exec s c call = Ok s' ->
  moved_out h s c call =
    match call with
    | call_burn from amount => if N.eqb from h then amount else 0
    | call_transfer _ amount => if N.eqb (sender c) h then amount else 0
    | _ => 0
    end.
Proof. intros H. unfold moved_out. by rewrite H. Qed.

Lemma exec_schedule (s s' : State) (c : Ctx) (call : Call) (h : address) :
  core_inv s -> wf_call c call -> 0 < total (vestingOf s h) ->
  exec s c call = Ok s' ->
  0 <= moved_out h s c call /\
  vestingOf s' h =
    set_released (released (vestingOf s h) + moved_out h s c call)
                 (vestingOf s h).
Proof.
  intros Hc [Ht Hwf] Hv H. rewrite (moved_out_exec h s s' c call H).
  destruct call; simpl in H.
  - apply admin_Ok in H as ->. by rewrite set_released_id.
  - apply admin_Ok in H as ->. by rewrite set_released_id.
  - apply admin_Ok in H as ->. by rewrite set_released_id.
  - apply admin_Ok in H as ->. by rewrite set_released_id.
  - unfold pause in H. apply bind_Ok in H as (? & _ & H).
    apply bind_Ok in H as (? & _ & H). injection H as <-.
    by rewrite set_released_id.
  - unfold unpause in H. apply bind_Ok in H as (? & _ & H).
    apply bind_Ok in H as (? & _ & H). injection H as <-.
    by rewrite set_released_id.
  - apply mint_Ok in H as (_ & s1 & H1 & ->).
    apply _mint_Ok in H1 as (_ & _ & _ & _ & _ & ->).
    by rewrite set_released_id.
  - apply mintWithVesting_Ok in H as (_ & Hz & s1 & H1 & ->).
    apply _mint_Ok in H1 as (_ & _ & _ & _ & _ & ->).
    rewrite set_released_id. split; [done|].
    assert (to <> h) by (intros ->; lia).
    unfold vestingOf. simpl. by rewrite lookup_insert_ne.
  - apply burn_Ok in H as (_ & s1 & H1 & ->).
    apply _burn_Ok in H1 as (Hf & _ & _ & _ & Hgate & _ & Hafter).
    destruct Hwf as [Hlo _].
    split; [destruct (N.eqb from h); lia|].
    change (vestingOf (emit (Burned from amount) s1) h)
      with (vestingOf s1 h).
    eapply (after_schedule_of s);
      [| apply (inv_vesting s Hc) | exact Hlo | exact Hf | exact Hgate
       | exact Hafter | exact Hv ].
    reflexivity.
  - unfold transfer in H.
    apply _transfer_Ok in H
      as (Hf & _ & _ & _ & _ & _ & _ & Hgate & _ & Hafter).
    destruct Hwf as [Hlo _].
    split; [destruct (N.eqb (sender c) h); lia|].
    eapply (after_schedule_of s);
      [| apply (inv_vesting s Hc) | exact Hlo | exact Hf | exact Hgate
       | exact Hafter | exact Hv ].
    reflexivity.
Qed.

Lemma step_schedule (s : State) (c : Ctx) (call : Call) (h : address) :
  core_inv s -> wf_call c call -> 0 < total (vestingOf s h) ->
  0 <= moved_out h s c call /\
  vestingOf (step s c call) h =
    set_released (released (vestingOf s h) + moved_out h s c call)
                 (vestingOf s h).
Proof.
  intros Hc Hwf Hv. unfold step.
  destruct (exec s c call) as [s'|e] eqn:E.
  - by apply exec_schedule.
  - unfold moved_out. rewrite E. by rewrite set_released_id.
Qed.

Lemma run_schedule (h : address) (tr : list (Ctx * Call)) (s : State) :
  ledger_inv s -> Forall (fun x => wf_call (fst x) (snd x)) tr ->
  0 < total (vestingOf s h) ->
  0 <= moved_out_total h s tr /\
  vestingOf (run s tr) h =
    set_released (released (vestingOf s h) + moved_out_total h s tr)
                 (vestingOf s h).
Proof.
  intros Hinv Htr. revert s Hinv.
  induction Htr as [|[c call] tr Hwf _ IH]; intros s Hinv Hv; simpl.
  - by rewrite set_released_id.
  - simpl in Hwf.
    destruct (step_schedule s c call h (proj1 Hinv) Hwf Hv) as [Hm Es].
    destruct (IH (step s c call)) as [Hm' Er].
    + by apply ledger_inv_step.
    + by rewrite Es.
    + split; [lia|]. rewrite Er, Es. unfold set_released. simpl.
      f_equal. lia.
Qed.

Lemma ledger_inv_run (s : State) (tr : list (Ctx * Call)) :
  ledger_inv s -> Forall (fun x => wf_call (fst x) (snd x)) tr ->
  ledger_inv (run s tr).
Proof.
  intros Hinv Htr. revert s Hinv.
  induction Htr as [|[c call] tr Hwf _ IH]; intros s Hinv; simpl; [done|].
  apply IH. by apply ledger_inv_step.
Qed.

Lemma available_of_vested (s : State) (h : address) (t x : Z) :
  total (vestingOf s h) <> 0 -> vestedAmount s h t = Ok x ->
  available s h t = Ok (Z.max 0 (x - released (vestingOf s h))).
Proof.
  intros Hv E. unfold available. rewrite E. simpl.
  destruct (Z.eqb_spec (total (vestingOf s h)) 0); [done|].
  destruct (Z.leb_spec x (released (vestingOf s h))); f_equal; lia.
Qed.

(** C9: for a holder whose schedule has [total > 0], whatever
    [available] returns is at most [total] and does not depend on the
    holder's balance; a transfer received leaves the holder's
    [vestedAmount] as it was and its [available] no larger; and along any
    sequence of transactions the units the holder moves out (its
    transfers and the burns from it) add up to at most [total -
    released], the schedule's [total] staying as it is. *)
Theorem vesting_holder_outflow_bounded :
  (forall (s : State) (h : address) (t a : Z),
     0 < total (vestingOf s h) -> 0 <= released (vestingOf s h) ->
     available s h t = Ok a -> a <= total (vestingOf s h)) /\
  (forall (s : State) (h : address) (t b : Z),
     0 < total (vestingOf s h) ->
     available (set_balance h b s) h t = available s h t) /\
  (forall (s s' : State) (c : Ctx) (to : address) (amount t : Z),
     core_inv s -> wf_call c (call_transfer to amount) ->
     0 < total (vestingOf s to) ->
     transfer s c to amount = Ok s' ->
     vestedAmount s' to t = vestedAmount s to t /\
     (forall a', available s' to t = Ok a' ->
        exists a, available s to t = Ok a /\ a' <= a) /\
     (sender c <> to -> available s' to t = available s to t)) /\
  (forall (s : State) (h : address) (tr : list (Ctx * Call)),
     ledger_inv s -> Forall (fun x => wf_call (fst x) (snd x)) tr ->
     0 < total (vestingOf s h) ->
     total (vestingOf (run s tr) h) = total (vestingOf s h) /\
     released (vestingOf (run s tr) h)
       = released (vestingOf s h) + moved_out_total h s tr /\
     0 <= moved_out_total h s tr
       <= total (vestingOf s h) - released (vestingOf s h) /\
     moved_out_total h s tr <= total (vestingOf s h)).
Proof.
  split; [|split; [|split]].
  - intros s h t a Hv Hr Ha.
    pose proof (available_le_total s h t a Hv Hr Ha). lia.
  - intros s h t b Hv. apply available_same_schedule; [lia | done].
  - intros s s' c to amount t Hc Hwf Hv H.
    destruct (exec_schedule s s' c (call_transfer to amount) to Hc Hwf Hv H)
      as [Hm Es].
    assert (Ev : vestedAmount s' to t = vestedAmount s to t).
    { apply vestedAmount_same_schedule; rewrite ?Es; simpl; lia. }
    split; [exact Ev|]. split.
    + intros a' Ha'.
      apply available_Ok in Ha' as [Hvest ->]; [|rewrite Es; simpl; lia].
      rewrite Ev in Hvest.
      rewrite (available_of_vested s to t _ ltac:(lia) Hvest).
      eexists. split; [reflexivity|].
      rewrite Es. simpl.
      assert (vested_piecewise (balanceOf s' to)
                (set_released
                   (released (vestingOf s to)
                    + moved_out to s c (call_transfer to amount))
                   (vestingOf s to)) t
              = vested_piecewise (balanceOf s to) (vestingOf s to) t).
      { rewrite <- Es.
        destruct (vestedAmount_cases s to t) as [E|E]; congruence. }
      lia.
    + intros Hne. apply available_same_schedule; [lia|].
      rewrite Es, (moved_out_exec to s s' c (call_transfer to amount) H).
      destruct (N.eqb_spec (sender c) to); [done|].
      apply set_released_id.
  - intros s h tr Hinv Htr Hv.
    destruct (run_schedule h tr s Hinv Htr Hv) as [Hm Er].
    destruct (ledger_inv_run s tr Hinv Htr) as [Hc' _].
    destruct (inv_vesting _ Hc' h) as ([_ Hle] & _).
    rewrite Er in Hle |- *. simpl in *.
    destruct (inv_vesting s (proj1 Hinv) h) as ([Hr0 _] & _). lia.
Qed.

Lemma vesting_holder_outflow_bounded_witness :
  moved_out_total bob s_vesting bob_sends = 39 /\
  moved_out_total bob s_vesting bob_sends
    <= total (vestingOf s_vesting bob) /\
  released (vestingOf (run s_vesting bob_sends) bob) = 39.
Proof.
  destruct vesting_holder_outflow_bounded as (_ & _ & _ & H).
  destruct (H s_vesting bob bob_sends) as (_ & Hr & _ & Hle).
  - apply reachable_ledger_inv, reachable_s_vesting.
  - repeat constructor; solve_wf_call.
  - by vm_compute.
  - split; [by vm_compute|]. split; [exact Hle|].
    rewrite Hr. by vm_compute.
Defined.

(** ** The vesting curve on the example ledgers *)


Example vestedAmount_long_lock :
  start (vestingOf s_long_lock bob) = 1000 /\
  duration (vestingOf s_long_lock bob) = MAX_UINT64 /\
  vestedAmount s_long_lock bob 1000 = Revert PanicOverflow.
Proof. by vm_compute. Qed.

Example vestedAmount_huge_total :
  total (vestingOf s_huge bob) = 2 ^ 255 /\
  vestedAmount s_huge bob 1001 = Ok (2 ^ 255 / 100) /\
  vestedAmount s_huge bob 1002 = Revert PanicOverflow.
Proof. by vm_compute. Qed.


Lemma vestedAmount_monotone_witness :
  exists v1 v2,
    vestedAmount s_vesting bob 1010 = Ok v1 /\
    vestedAmount s_vesting bob 1050 = Ok v2 /\ v1 <= v2.
Proof.
  apply (vestedAmount_monotone s_vesting bob 1010 1050); by vm_compute.
Defined.

Lemma vestedAmount_no_div_by_zero_witness :
  vestedAmount s_instant bob 1000 = Ok 100 /\
  vestedAmount s_instant bob 999 = Ok 0.
Proof.
  destruct (vestedAmount_no_div_by_zero s_instant bob 1000) as [_ H1].
  destruct (vestedAmount_no_div_by_zero s_instant bob 999) as [_ H2].
  split.
  - apply H1; by vm_compute.
  - apply H2; by vm_compute.
Defined.

(** ** The repository's test scenarios on the embedding *)

(** "mintWithVesting creates vesting and locks amount" *)
Example test_vesting_locks :
  available s_vesting bob 1000 = Ok 0 /\
  available s_vesting bob 1050 = Ok 50 /\
  available s_vesting bob 1100 = Ok 100.
Proof. by vm_compute. Qed.

(** "transfer more than available reverts" *)
Example test_transfer_locked :
  transfer s_vesting (mkCtx bob 1010) alice 20 = Revert AmountLocked /\
  available (step s_vesting (mkCtx bob 1010) (call_transfer alice 9)) bob 1010
    = Ok 1.
Proof. by vm_compute. Qed.

(** "freeze and unfreeze works", "pause and unpause works", "burn
    decreases balance" *)
Example test_freeze_pause_burn :
  let owner1 := mkCtx deployer1 1000 in
  let s1 := step s_listed owner1 (call_mint alice 10) in
  let s2 := step s1 owner1 (call_freezeAddress alice) in
  let s3 := step s2 owner1 (call_unfreezeAddress alice) in
  let s4 := step s3 owner1 call_pause in
  let s5 := step s4 owner1 call_unpause in
  let s6 := step s5 owner1 (call_burn alice 2) in
  transfer s2 (mkCtx alice 1000) bob 1 = Revert SenderFrozen /\
  balanceOf (step s3 (mkCtx alice 1000) (call_transfer bob 1)) bob = 1 /\
  transfer s4 (mkCtx alice 1000) bob 1 = Revert SystemPaused /\
  balanceOf (step s5 (mkCtx alice 1000) (call_transfer bob 1)) bob = 1 /\
  balanceOf s6 alice = 8 /\ totalSupply s6 = 8.
Proof. by vm_compute. Qed.

(** * Further properties of the contract *)

(** ** Owner-only functions *)

Lemma exec_non_owner (s : State) (c : Ctx) (call : Call) :
  owner s <> sender c ->
  (forall to amount, call <> call_transfer to amount) ->
  exec s c call = Revert NotOwner.
Proof.
  intros Ho Hcall.
  destruct call; simpl;
    try (unfold addToWhitelist, removeFromWhitelist, freezeAddress,
           unfreezeAddress, pause, unpause, mint, mintWithVesting, burn;
         by rewrite onlyOwner_other).
  by destruct (Hcall to amount).
Qed.

Lemma same_controls_refl (s : State) : same_controls s s.
Proof. by repeat split. Qed.

Lemma same_controls_trans (s1 s2 s3 : State) :
  same_controls s1 s2 -> same_controls s2 s3 -> same_controls s1 s3.
Proof.
  intros (Ho & Hp & Ht & Ha) (Ho' & Hp' & Ht' & Ha').
  split; [congruence|]. split; [congruence|]. split; [congruence|].
  intros a. destruct (Ha a) as (?&?&?&?&?), (Ha' a) as (?&?&?&?&?).
  repeat split; congruence.
Qed.

(** A transfer that goes through writes balances, [released] and the
    log, nothing else. *)
Lemma transfer_same_controls (s s' : State) (c : Ctx) to amount :
  transfer s c to amount = Ok s' -> same_controls s s'.
Proof.
  unfold transfer. intros H.
  apply _transfer_Ok in H as (_ & _ & _ & _ & _ & _ & _ & _ & _ & Ha).
  apply after_Ok in Ha as [[-> _]|(-> & _ & _)].
  - by repeat split.
  - split; [done|]. split; [done|]. split; [done|]. intros a.
    split; [done|]. split; [done|].
    destruct (N.eq_dec (sender c) a) as [<-|Hne].
    + rewrite vestingOf_set_vesting_eq. by repeat split.
    + rewrite vestingOf_set_vesting_ne by done. by repeat split.
Qed.

Lemma step_non_owner (s : State) (c : Ctx) (call : Call) :
  owner s <> sender c -> same_controls s (step s c call).
Proof.
  intros Ho. unfold step.
  destruct (exec s c call) as [s'|e] eqn:E; [|apply same_controls_refl].
  destruct call;
    try (rewrite exec_non_owner in E by done; discriminate E).
  by apply (transfer_same_controls s s' c to amount).
Qed.

Lemma run_non_owner (tr : list (Ctx * Call)) (s : State) :
  Forall (fun x => owner s <> sender (fst x)) tr ->
  same_controls s (run s tr).
Proof.
  revert s. induction tr as [|[c call] tr IH]; intros s Htr; simpl.
  - apply same_controls_refl.
  - apply Forall_cons in Htr as [Hc Htr]. simpl in Hc.
    pose proof (step_non_owner s c call Hc) as Hs.
    apply (same_controls_trans s (step s c call)); [exact Hs|].
    apply IH. destruct Hs as (Eo & _). by rewrite Eo.
Qed.

(** X1: each of the nine functions the contract declares under
    [onlyOwner], called by anyone but the owner, reverts with "Ownable:
    caller is not the owner" and leaves the ledger as it was.  So over any
    sequence of calls to these functions and to [transfer], none of them
    sent by the owner, the owner, the pause flag, the supply, every
    whitelist and freeze flag and the [total], [start] and [duration] of
    every schedule stay as they were. *)
Theorem owner_only_rejects_others (s : State) :
  (forall (c : Ctx) (call : Call),
     owner s <> sender c ->
     (forall to amount, call <> call_transfer to amount) ->
     exec s c call = Revert NotOwner /\ step s c call = s) /\
  (forall tr : list (Ctx * Call),
     Forall (fun x => owner s <> sender (fst x)) tr ->
     same_controls s (run s tr)).
Proof.
  split.
  - intros c call Ho Hcall.
    pose proof (exec_non_owner s c call Ho Hcall) as E.
    split; [exact E|]. unfold step. by rewrite E.
  - intros tr. apply run_non_owner.
Qed.

Lemma owner_only_rejects_others_witness :
  exec s_listed (mkCtx alice 1000) (call_mint alice 5) = Revert NotOwner /\
  step s_listed (mkCtx alice 1000) (call_burn bob 0) = s_listed /\
  same_controls s_vesting
    (run s_vesting
       ((mkCtx bob 1002, call_pause)
        :: (mkCtx bob 1003, call_freezeAddress alice) :: bob_sends)).
Proof.
  destruct (owner_only_rejects_others s_listed) as [Hcall _].
  destruct (owner_only_rejects_others s_vesting) as [_ Htrace].
  split; [apply (Hcall (mkCtx alice 1000) (call_mint alice 5));
          by vm_compute|].
  split; [apply (Hcall (mkCtx alice 1000) (call_burn bob 0));
          by vm_compute|].
  apply Htrace. repeat constructor; by vm_compute.
Defined.

(** ** Whitelist and freeze flags *)

Lemma isWhitelisted_set_whitelist (s : State) (u a : address) (b : bool) :
  isWhitelisted (set_whitelist u b s) a
    = if N.eqb a u then b else isWhitelisted s a.
Proof.
  unfold isWhitelisted. simpl. destruct (N.eqb_spec a u) as [->|Hne].
  - by rewrite lookup_insert_eq.
  - by rewrite lookup_insert_ne.
Qed.

Lemma isFrozen_set_frozen (s : State) (u a : address) (b : bool) :
  isFrozen (set_frozen u b s) a = if N.eqb a u then b else isFrozen s a.
Proof.
  unfold isFrozen. simpl. destruct (N.eqb_spec a u) as [->|Hne].
  - by rewrite lookup_insert_eq.
  - by rewrite lookup_insert_ne.
Qed.

(** X2: for the owner [addToWhitelist(u)] and [removeFromWhitelist(u)]
    always succeed, also when the flag already has that value; afterwards
    [u] reads as whitelisted (resp. not), every other address reads as
    before, and no balance, schedule, freeze flag, supply or pause flag
    has changed. *)
Theorem whitelist_set_and_read (s : State) (c : Ctx) (u : address) :
  owner s = sender c ->
  exists s1 s2,
    addToWhitelist s c u = Ok s1 /\ removeFromWhitelist s c u = Ok s2 /\
    (forall a, isWhitelisted s1 a
               = if N.eqb a u then true else isWhitelisted s a) /\
    (forall a, isWhitelisted s2 a
               = if N.eqb a u then false else isWhitelisted s a) /\
    (isWhitelisted s u = true -> same_storage s1 s) /\
    (isWhitelisted s u = false -> same_storage s2 s) /\
    same_storage (set_whitelist u (isWhitelisted s u) s1) s /\
    same_storage (set_whitelist u (isWhitelisted s u) s2) s.
Proof.
  intros Ho. unfold addToWhitelist, removeFromWhitelist.
  rewrite onlyOwner_owner by done. simpl.
  eexists. eexists. split; [reflexivity|]. split; [reflexivity|].
  assert (Hflag : forall b, isWhitelisted s u = b ->
            same_storage (emit (if b then Whitelisted u else Unwhitelisted u)
                            (set_whitelist u b s)) s).
  { intros b Hb. repeat split; try done.
    intros a. change (isWhitelisted (set_whitelist u b s) a
                      = isWhitelisted s a).
    rewrite isWhitelisted_set_whitelist.
    by destruct (N.eqb_spec a u) as [->|]. }
  assert (Hback : forall e b,
            same_storage
              (set_whitelist u (isWhitelisted s u)
                 (emit e (set_whitelist u b s))) s).
  { intros e b. repeat split; try done.
    intros a. unfold isWhitelisted at 1. simpl.
    destruct (N.eq_dec u a) as [<-|Hne].
    - by rewrite lookup_insert_eq.
    - by rewrite !lookup_insert_ne. }
  refine (conj _ (conj _ (conj _ (conj _ (conj _ _))))); try apply Hback.
  - intros a. apply (isWhitelisted_set_whitelist s u a true).
  - intros a. apply (isWhitelisted_set_whitelist s u a false).
  - apply (Hflag true).
  - apply (Hflag false).
Qed.

Lemma whitelist_set_and_read_witness :
  exists s1 s2,
    addToWhitelist s_listed (mkCtx deployer1 1001) carol = Ok s1 /\
    removeFromWhitelist s_listed (mkCtx deployer1 1001) alice = Ok s2 /\
    isWhitelisted s1 carol = true /\ isWhitelisted s2 alice = false.
Proof.
  destruct (whitelist_set_and_read s_listed (mkCtx deployer1 1001) carol
              eq_refl) as (s1 & _ & E1 & _ & R1 & _).
  destruct (whitelist_set_and_read s_listed (mkCtx deployer1 1001) alice
              eq_refl) as (_ & s2 & _ & E2 & _ & R2 & _).
  exists s1, s2. split; [exact E1|]. split; [exact E2|].
  split; [by rewrite R1 | by rewrite R2].
Defined.

(** ** The gate, sender side passed *)

Lemma before_receiver (s : State) t from to amount :
  paused s = false ->
  (from <> zero_address ->
     isFrozen s from = false /\ isWhitelisted s from = true /\
     (0 < total (vestingOf s from) ->
      exists a, available s from t = Ok a /\ amount <= a)) ->
  _beforeTokenTransfer s t from to amount =
    if N.eqb to zero_address then Ok tt
    else if isFrozen s to then Revert ReceiverFrozen
    else if isWhitelisted s to then Ok tt
    else Revert ReceiverNotWhitelisted.
Proof.
  intros Hp Hs. unfold _beforeTokenTransfer, whenNotPaused.
  rewrite Hp. simpl.
  assert (Hfrom :
    (if negb (N.eqb from zero_address)
     then require (negb (isFrozen s from)) SenderFrozen;;
          require (isWhitelisted s from) SenderNotWhitelisted;;
          (if 0 <? total (vestingOf s from)
           then a ← available s from t; require (amount <=? a) AmountLocked
           else Ok tt)
     else Ok tt) = Ok tt).
  { destruct (N.eqb_spec from zero_address) as [->|Hf]; [done|]. simpl.
    destruct (Hs Hf) as (-> & -> & Hav). simpl.
    destruct (Z.ltb_spec 0 (total (vestingOf s from))) as [Hv|Hv]; [|done].
    destruct (Hav Hv) as (a & -> & Hle). simpl.
    by destruct (Z.leb_spec amount a); [|lia]. }
  rewrite Hfrom. simpl.
  destruct (N.eqb to zero_address); [done|]. simpl.
  destruct (isFrozen s to); [done|]. simpl.
  by destruct (isWhitelisted s to).
Qed.

(** X3: the gate before a balance mutation passes exactly when the
    ledger is not paused, a non-null sender is not frozen, is whitelisted
    and (with a schedule) asks for no more than [available] returns, and
    a non-null receiver is not frozen and is whitelisted. *)
Theorem gate_passes_iff (s : State) (t : Z) (from to : address) (amount : Z) :
  _beforeTokenTransfer s t from to amount = Ok tt <->
  paused s = false /\
  (from <> zero_address ->
     isFrozen s from = false /\ isWhitelisted s from = true /\
     (0 < total (vestingOf s from) ->
      exists a, available s from t = Ok a /\ amount <= a)) /\
  (to <> zero_address ->
     isFrozen s to = false /\ isWhitelisted s to = true).
Proof.
  split; [apply before_Ok|].
  intros (Hp & Hfrom & Hto). rewrite before_receiver by done.
  destruct (N.eqb_spec to zero_address) as [->|Ht]; [done|].
  by destruct (Hto Ht) as [-> ->].
Qed.

(** X4: once the sender side of the gate has passed (or the sender is
    null, as in a mint), a frozen receiver is reported as "Receiver
    frozen" whether or not it is whitelisted, and "Receiver not
    whitelisted" is reported only for a receiver that is not frozen; so a
    transfer to a frozen or non-whitelisted address is rejected, and an
    owner's [mint] to a frozen whitelisted address is rejected with
    "Receiver frozen".  The owner's [mintWithVesting] to such an address
    is rejected with "Receiver frozen" when the address has no schedule;
    when it has one, the check of [mintWithVesting] itself comes first and
    the reason is "Vesting exists". *)
Theorem receiver_checks_order (s : State) (c : Ctx) (to : address)
    (amount : Z) :
  paused s = false -> to <> zero_address ->
  (sender c <> zero_address -> isFrozen s (sender c) = false ->
   isWhitelisted s (sender c) = true ->
   (0 < total (vestingOf s (sender c)) ->
    exists a, available s (sender c) (timestamp c) = Ok a /\ amount <= a) ->
   (isFrozen s to = true ->
      transfer s c to amount = Revert ReceiverFrozen) /\
   (isFrozen s to = false -> isWhitelisted s to = false ->
      transfer s c to amount = Revert ReceiverNotWhitelisted)) /\
  (owner s = sender c -> isWhitelisted s to = true ->
   isFrozen s to = true ->
   mint s c to amount = Revert ReceiverFrozen /\
   (total (vestingOf s to) = 0 ->
    forall dur, mintWithVesting s c to amount dur = Revert ReceiverFrozen) /\
   (total (vestingOf s to) <> 0 ->
    forall dur, mintWithVesting s c to amount dur = Revert VestingExists)).
Proof.
  intros Hp Ht. split.
  - intros Hs Hfr Hw Hav.
    assert (E : _beforeTokenTransfer s (timestamp c) (sender c) to amount =
                if isFrozen s to then Revert ReceiverFrozen
                else if isWhitelisted s to then Ok tt
                else Revert ReceiverNotWhitelisted).
    { rewrite before_receiver by done. by rewrite neq_zero_eqb. }
    unfold transfer, _transfer. rewrite !neq_zero_eqb by done. simpl.
    rewrite E. split.
    + by intros ->.
    + by intros -> ->.
  - intros Ho Hw Hfr.
    assert (E : _beforeTokenTransfer s (timestamp c) zero_address to amount
                = Revert ReceiverFrozen).
    { rewrite before_receiver by done. by rewrite neq_zero_eqb, Hfr. }
    split.
    + unfold mint, _mint. rewrite onlyOwner_owner, Hw by done. simpl.
      rewrite neq_zero_eqb by done. simpl. by rewrite E.
    + split.
      * intros Hv dur. unfold mintWithVesting, _mint.
        rewrite onlyOwner_owner, Hw, Hv by done. simpl.
        rewrite neq_zero_eqb by done. simpl. by rewrite E.
      * intros Hv dur. unfold mintWithVesting.
        rewrite onlyOwner_owner, Hw by done. simpl.
        by destruct (Z.eqb_spec (total (vestingOf s to)) 0).
Qed.

Lemma receiver_checks_order_witness :
  transfer s_bob_frozen (mkCtx alice 1001) bob 1 = Revert ReceiverFrozen /\
  transfer s_funded (mkCtx alice 1001) carol 1
    = Revert ReceiverNotWhitelisted /\
  mint s_bob_frozen (mkCtx deployer1 1001) bob 1 = Revert ReceiverFrozen /\
  mintWithVesting s_bob_frozen (mkCtx deployer1 1001) bob 1 10
    = Revert ReceiverFrozen /\
  mintWithVesting s_vesting_frozen (mkCtx deployer1 1002) bob 1 10
    = Revert VestingExists.
Proof.
  destruct (receiver_checks_order s_vesting_frozen (mkCtx deployer1 1002)
              bob 1) as [_ Hsched]; [by vm_compute | by vm_compute |].
  destruct (receiver_checks_order s_bob_frozen (mkCtx alice 1001) bob 1)
    as [Htr _]; [by vm_compute | by vm_compute |].
  destruct (receiver_checks_order s_funded (mkCtx alice 1001) carol 1)
    as [Htr' _]; [by vm_compute | by vm_compute |].
  destruct (receiver_checks_order s_bob_frozen (mkCtx deployer1 1001) bob 1)
    as [_ Hmint]; [by vm_compute | by vm_compute |].
  split; [apply Htr; by vm_compute|].
  split; [apply Htr'; by vm_compute|].
  destruct Hmint as (Hplain & Hfresh & _); [by vm_compute ..|].
  destruct Hsched as (_ & _ & Hexists); [by vm_compute ..|].
  split; [exact Hplain|].
  split; [apply Hfresh | apply Hexists]; by vm_compute.
Defined.

(** X5: the owner's [freezeAddress(u)] always succeeds and blocks every
    outgoing movement of a non-null [u] while the ledger is not paused: a
    transfer sent by [u] and the owner's own burn from [u] both revert with
    "Sender frozen", whatever the amount, whitelist entry and schedule.
    [unfreezeAddress(u)] always succeeds and clears the flag. *)
Theorem freeze_blocks_holder (s : State) (c : Ctx) (u : address) :
  owner s = sender c ->
  exists s1 s2,
    freezeAddress s c u = Ok s1 /\ unfreezeAddress s c u = Ok s2 /\
    isFrozen s1 u = true /\ isFrozen s2 u = false /\
    (forall a, a <> u -> isFrozen s1 a = isFrozen s a /\
                         isFrozen s2 a = isFrozen s a) /\
    (paused s = false -> u <> zero_address ->
     forall t to amount,
       transfer s1 (mkCtx u t) to amount
         = (if N.eqb to zero_address then Revert TransferToZero
            else Revert SenderFrozen) /\
       burn s1 (mkCtx (owner s) t) u amount = Revert SenderFrozen).
Proof.
  intros Ho. unfold freezeAddress, unfreezeAddress.
  rewrite onlyOwner_owner by done. simpl.
  eexists. eexists. split; [reflexivity|]. split; [reflexivity|].
  assert (R : forall b e a,
            isFrozen (emit e (set_frozen u b s)) a
            = if N.eqb a u then b else isFrozen s a).
  { intros b e a. apply (isFrozen_set_frozen s u a b). }
  split; [by rewrite R, N.eqb_refl|]. split; [by rewrite R, N.eqb_refl|].
  split.
  - intros a Hne. rewrite !R. by destruct (N.eqb_spec a u).
  - intros Hp Hu t to amount.
    assert (G : forall to',
              _beforeTokenTransfer (emit (Frozen u) (set_frozen u true s))
                t u to' amount = Revert SenderFrozen).
    { intros to'. apply before_sender_frozen; [done | done |].
      by rewrite R, N.eqb_refl. }
    split.
    + unfold transfer, _transfer. simpl.
      rewrite (neq_zero_eqb u) by done. simpl.
      destruct (N.eqb to zero_address); [done|]. simpl. by rewrite G.
    + unfold burn, _burn. rewrite onlyOwner_owner by done. simpl.
      rewrite (neq_zero_eqb u) by done. simpl. by rewrite G.
Qed.

Lemma freeze_blocks_holder_witness :
  exists s1,
    freezeAddress s_funded (mkCtx deployer1 1001) alice = Ok s1 /\
    transfer s1 (mkCtx alice 1002) bob 1 = Revert SenderFrozen /\
    burn s1 (mkCtx deployer1 1002) alice 1 = Revert SenderFrozen.
Proof.
  destruct (freeze_blocks_holder s_funded (mkCtx deployer1 1001) alice
              eq_refl) as (s1 & _ & E & _ & _ & _ & _ & Hblock).
  exists s1. split; [exact E|].
  destruct (Hblock eq_refl ltac:(by vm_compute) 1002 bob 1) as [Ht Hb].
  split; [exact Ht | exact Hb].
Defined.

(** ** Pausing *)

(** X6: [pause] and [unpause] form a two-state switch for the owner:
    [pause] succeeds exactly when the ledger is not paused and sets the
    flag, [unpause] succeeds exactly when it is paused and clears it; the
    repeated call reverts ("Pausable: paused", "Pausable: not paused").
    Neither touches a balance, a flag of an address, a schedule or the
    supply. *)
Theorem pause_switch (s : State) (c : Ctx) :
  owner s = sender c ->
  (paused s = false ->
     pause s c = Ok (emit (Paused (sender c)) (set_paused true s)) /\
     unpause s c = Revert NotPaused) /\
  (paused s = true ->
     unpause s c = Ok (emit (Unpaused (sender c)) (set_paused false s)) /\
     pause s c = Revert SystemPaused) /\
  (forall s', pause s c = Ok s' \/ unpause s c = Ok s' ->
     paused s' = negb (paused s) /\
     same_storage (set_paused (paused s) s') s).
Proof.
  intros Ho. unfold pause, unpause, whenNotPaused, whenPaused.
  rewrite onlyOwner_owner by done. simpl.
  split; [|split].
  - by intros ->.
  - by intros ->.
  - intros s' H. destruct (paused s) eqn:Hp; simpl in H;
      destruct H as [H|H]; try discriminate H; injection H as <-;
      (split; [reflexivity|]); repeat split; simpl; congruence.
Qed.

Lemma pause_switch_witness :
  pause s_listed (mkCtx deployer1 1001)
    = Ok (emit (Paused deployer1) (set_paused true s_listed)) /\
  pause s_paused (mkCtx deployer1 1001) = Revert SystemPaused /\
  unpause s_listed (mkCtx deployer1 1001) = Revert NotPaused.
Proof.
  destruct (pause_switch s_listed (mkCtx deployer1 1001) eq_refl)
    as (Hactive & _ & _).
  destruct (pause_switch s_paused (mkCtx deployer1 1001) eq_refl)
    as (_ & Hpaused & _).
  destruct (Hactive eq_refl) as [E1 E2].
  destruct (Hpaused eq_refl) as [_ E3].
  split; [exact E1|]. split; [exact E3 | exact E2].
Defined.

(** ** Transactions read the ledger only through its mappings *)

Lemma same_storage_refl (s : State) : same_storage s s.
Proof. by repeat split. Qed.

Lemma same_storage_sym (s s' : State) : same_storage s s' -> same_storage s' s.
Proof. intros (?&?&?&?&?&?&?). by repeat split. Qed.

Lemma same_storage_trans (s1 s2 s3 : State) :
  same_storage s1 s2 -> same_storage s2 s3 -> same_storage s1 s3.
Proof.
  intros (?&?&?&Hb&Hw&Hf&Hv) (?&?&?&Hb'&Hw'&Hf'&Hv').
  repeat split; try congruence; intros a;
    by rewrite ?Hb, ?Hw, ?Hf, ?Hv.
Qed.

Lemma balanceOf_set_balance (s : State) (a b : address) (x : Z) :
  balanceOf (set_balance a x s) b = if N.eqb b a then x else balanceOf s b.
Proof.
  destruct (N.eqb_spec b a) as [->|Hne].
  - apply balanceOf_set_balance_eq.
  - by apply balanceOf_set_balance_ne.
Qed.

Lemma vestingOf_set_vesting (s : State) (a b : address) (v : Vesting) :
  vestingOf (set_vesting a v s) b = if N.eqb b a then v else vestingOf s b.
Proof.
  destruct (N.eqb_spec b a) as [->|Hne].
  - apply vestingOf_set_vesting_eq.
  - by apply vestingOf_set_vesting_ne.
Qed.

Lemma same_storage_emit (s s' : State) (e e' : Event) :
  same_storage s s' -> same_storage (emit e s) (emit e' s').
Proof. intros H. exact H. Qed.

Lemma same_storage_emit_l (s s' : State) (e : Event) :
  same_storage s s' -> same_storage (emit e s) s'.
Proof. intros H. exact H. Qed.

Lemma same_storage_set_balance (s s' : State) a x :
  same_storage s s' -> same_storage (set_balance a x s) (set_balance a x s').
Proof.
  intros (?&?&?&Hb&?&?&?). repeat split; try done.
  intros b. by rewrite !balanceOf_set_balance, Hb.
Qed.

Lemma same_storage_set_totalSupply (s s' : State) x :
  same_storage s s' ->
  same_storage (set_totalSupply x s) (set_totalSupply x s').
Proof. intros (?&?&?&?&?&?&?). by repeat split. Qed.

Lemma same_storage_set_paused (s s' : State) b :
  same_storage s s' -> same_storage (set_paused b s) (set_paused b s').
Proof. intros (?&?&?&?&?&?&?). by repeat split. Qed.

Lemma same_storage_set_vesting (s s' : State) a v :
  same_storage s s' -> same_storage (set_vesting a v s) (set_vesting a v s').
Proof.
  intros (?&?&?&?&?&?&Hv). repeat split; try done.
  intros b. by rewrite !vestingOf_set_vesting, Hv.
Qed.

Lemma same_storage_set_whitelist (s s' : State) a b :
  same_storage s s' ->
  same_storage (set_whitelist a b s) (set_whitelist a b s').
Proof.
  intros (?&?&?&?&Hw&?&?). repeat split; try done.
  intros x. by rewrite !isWhitelisted_set_whitelist, Hw.
Qed.

Lemma same_storage_set_frozen (s s' : State) a b :
  same_storage s s' -> same_storage (set_frozen a b s) (set_frozen a b s').
Proof.
  intros (?&?&?&?&?&Hf&?). repeat split; try done.
  intros x. by rewrite !isFrozen_set_frozen, Hf.
Qed.

Lemma available_same_storage (s s' : State) (h : address) (t : Z) :
  same_storage s s' -> available s h t = available s' h t.
Proof.
  intros (_&_&_&Hb&_&_&Hv). unfold available, vestedAmount.
  by rewrite (Hb h), (Hv h).
Qed.

Lemma before_same_storage (s s' : State) t from to amount :
  same_storage s s' ->
  _beforeTokenTransfer s t from to amount
    = _beforeTokenTransfer s' t from to amount.
Proof.
  intros H. pose proof (available_same_storage s s' from t H) as Ha.
  destruct H as (_&Hp&_&_&Hw&Hf&Hv).
  unfold _beforeTokenTransfer, whenNotPaused.
  by rewrite Hp, (Hw from), (Hw to), (Hf from), (Hf to), (Hv from), Ha.
Qed.

Lemma same_outcome_bind (r r' : result State) (k k' : State -> result State) :
  same_outcome r r' ->
  (forall a b, same_storage a b -> same_outcome (k a) (k' b)) ->
  same_outcome (r ≫= k) (r' ≫= k').
Proof.
  intros Hr Hk. destruct r, r'; simpl in *; try done. by apply Hk.
Qed.

Lemma same_outcome_guard {A} (g : result A) (k k' : A -> result State) :
  (forall a, same_outcome (k a) (k' a)) ->
  same_outcome (g ≫= k) (g ≫= k').
Proof. intros Hk. destruct g; simpl; [apply Hk | done]. Qed.

Lemma after_same_storage (s s' : State) from to amount :
  same_storage s s' ->
  same_outcome (_afterTokenTransfer s from to amount)
               (_afterTokenTransfer s' from to amount).
Proof.
  intros H. pose proof H as (_&_&_&_&_&_&Hv).
  unfold _afterTokenTransfer. rewrite (Hv from).
  destruct (negb (N.eqb from zero_address)
            && (0 <? total (vestingOf s' from))); [|exact H].
  apply same_outcome_guard. intros r. simpl.
  by apply same_storage_set_vesting.
Qed.

Lemma _mint_same_storage (s s' : State) t a amount :
  same_storage s s' ->
  same_outcome (_mint s t a amount) (_mint s' t a amount).
Proof.
  intros H. pose proof H as (_&_&Hts&Hb&_&_&_). unfold _mint.
  apply same_outcome_guard. intros _.
  rewrite (before_same_storage s s') by done.
  apply same_outcome_guard. intros _. rewrite Hts.
  apply same_outcome_guard. intros ts.
  apply after_same_storage, same_storage_emit.
  change (balanceOf (set_totalSupply ts s) a) with (balanceOf s a).
  change (balanceOf (set_totalSupply ts s') a) with (balanceOf s' a).
  rewrite (Hb a).
  by apply same_storage_set_balance, same_storage_set_totalSupply.
Qed.

Lemma _burn_same_storage (s s' : State) t a amount :
  same_storage s s' ->
  same_outcome (_burn s t a amount) (_burn s' t a amount).
Proof.
  intros H. pose proof H as (_&_&Hts&Hb&_&_&_). unfold _burn.
  apply same_outcome_guard. intros _.
  rewrite (before_same_storage s s') by done.
  apply same_outcome_guard. intros _. rewrite (Hb a).
  apply same_outcome_guard. intros _.
  apply after_same_storage, same_storage_emit.
  change (totalSupply (set_balance a (wrap256 (balanceOf s' a - amount)) s))
    with (totalSupply s).
  change (totalSupply (set_balance a (wrap256 (balanceOf s' a - amount)) s'))
    with (totalSupply s').
  rewrite Hts.
  by apply same_storage_set_totalSupply, same_storage_set_balance.
Qed.

Lemma _transfer_same_storage (s s' : State) t from to amount :
  same_storage s s' ->
  same_outcome (_transfer s t from to amount) (_transfer s' t from to amount).
Proof.
  intros H. pose proof H as (_&_&_&Hb&_&_&_). unfold _transfer.
  apply same_outcome_guard. intros _.
  apply same_outcome_guard. intros _.
  rewrite (before_same_storage s s') by done.
  apply same_outcome_guard. intros _. rewrite (Hb from).
  apply same_outcome_guard. intros _.
  apply after_same_storage, same_storage_emit.
  assert (H1 : same_storage
                 (set_balance from (wrap256 (balanceOf s' from - amount)) s)
                 (set_balance from (wrap256 (balanceOf s' from - amount)) s'))
    by by apply same_storage_set_balance.
  pose proof H1 as (_&_&_&Hb1&_&_&_). rewrite (Hb1 to).
  by apply same_storage_set_balance.
Qed.

Lemma exec_same_storage (s s' : State) (c : Ctx) (call : Call) :
  same_storage s s' -> same_outcome (exec s c call) (exec s' c call).
Proof.
  intros H. pose proof H as (Ho&Hp&_&_&Hw&_&Hv).
  assert (Hown : onlyOwner s c = onlyOwner s' c).
  { unfold onlyOwner. by rewrite Ho. }
  destruct call; simpl.
  - unfold addToWhitelist. rewrite Hown. apply same_outcome_guard.
    intros _. by apply same_storage_emit, same_storage_set_whitelist.
  - unfold removeFromWhitelist. rewrite Hown. apply same_outcome_guard.
    intros _. by apply same_storage_emit, same_storage_set_whitelist.
  - unfold freezeAddress. rewrite Hown. apply same_outcome_guard.
    intros _. by apply same_storage_emit, same_storage_set_frozen.
  - unfold unfreezeAddress. rewrite Hown. apply same_outcome_guard.
    intros _. by apply same_storage_emit, same_storage_set_frozen.
  - unfold pause, whenNotPaused. rewrite Hown, Hp.
    apply same_outcome_guard. intros _. apply same_outcome_guard.
    intros _. by apply same_storage_emit, same_storage_set_paused.
  - unfold unpause, whenPaused. rewrite Hown, Hp.
    apply same_outcome_guard. intros _. apply same_outcome_guard.
    intros _. by apply same_storage_emit, same_storage_set_paused.
  - unfold mint. rewrite Hown, (Hw to).
    apply same_outcome_guard. intros _. apply same_outcome_guard. intros _.
    apply same_outcome_bind; [by apply _mint_same_storage|].
    intros a b Hab. by apply same_storage_emit.
  - unfold mintWithVesting. rewrite Hown, (Hw to), (Hv to).
    apply same_outcome_guard. intros _. apply same_outcome_guard. intros _.
    apply same_outcome_guard. intros _.
    apply same_outcome_bind; [by apply _mint_same_storage|].
    intros a b Hab.
    by apply same_storage_emit, same_storage_emit, same_storage_set_vesting.
  - unfold burn. rewrite Hown. apply same_outcome_guard. intros _.
    apply same_outcome_bind; [by apply _burn_same_storage|].
    intros a b Hab. by apply same_storage_emit.
  - unfold transfer. by apply _transfer_same_storage.
Qed.

Lemma step_same_storage (s s' : State) (c : Ctx) (call : Call) :
  same_storage s s' -> same_storage (step s c call) (step s' c call).
Proof.
  intros H. pose proof (exec_same_storage s s' c call H) as Ho.
  unfold step. by destruct (exec s c call), (exec s' c call).
Qed.

Lemma run_same_storage (tr : list (Ctx * Call)) (s s' : State) :
  same_storage s s' -> same_storage (run s tr) (run s' tr).
Proof.
  revert s s'. induction tr as [|[c call] tr IH]; intros s s' H; simpl.
  - exact H.
  - by apply IH, step_same_storage.
Qed.

Lemma run_app (s : State) (tr1 tr2 : list (Ctx * Call)) :
  run s (tr1 ++ tr2) = run (run s tr1) tr2.
Proof.
  revert s. induction tr1 as [|[c call] tr1 IH]; intros s; simpl; [done|].
  apply IH.
Qed.

(** X7: [unpause] after [pause] restores the ledger: both succeed for the
    owner of a ledger that is not paused, and afterwards every read
    answers as before the pause, so every transaction has the outcome it
    would have had and every sequence of transactions leads to the same
    balances, flags and schedules. *)
Theorem pause_unpause_restores (s : State) (c1 c2 : Ctx) :
  owner s = sender c1 -> sender c2 = sender c1 -> paused s = false ->
  exists s1 s2,
    pause s c1 = Ok s1 /\ unpause s1 c2 = Ok s2 /\
    same_storage s2 s /\
    (forall c call, same_outcome (exec s2 c call) (exec s c call)) /\
    (forall tr, same_storage (run s2 tr) (run s tr)).
Proof.
  intros Ho Hc Hp.
  exists (emit (Paused (sender c1)) (set_paused true s)).
  exists (emit (Unpaused (sender c2))
            (set_paused false (emit (Paused (sender c1)) (set_paused true s)))).
  assert (Hsame : same_storage
            (emit (Unpaused (sender c2))
               (set_paused false
                  (emit (Paused (sender c1)) (set_paused true s)))) s).
  { repeat split; simpl; congruence. }
  split.
  { unfold pause, whenNotPaused. by rewrite onlyOwner_owner, Hp. }
  split.
  { unfold unpause, whenPaused. rewrite onlyOwner_owner; [done|].
    simpl. congruence. }
  split; [exact Hsame|]. split.
  - intros c call. by apply exec_same_storage.
  - intros tr. by apply run_same_storage.
Qed.

Lemma pause_unpause_restores_witness :
  exists s2,
    unpause s_paused (mkCtx deployer1 1002) = Ok s2 /\
    same_storage s2 s_listed /\
    same_outcome (exec s2 (mkCtx deployer1 1003) (call_mint alice 5))
                 (exec s_listed (mkCtx deployer1 1003) (call_mint alice 5)).
Proof.
  destruct (pause_unpause_restores s_listed (mkCtx deployer1 1000)
              (mkCtx deployer1 1002) eq_refl eq_refl eq_refl)
    as (s1 & s2 & E1 & E2 & Hs & Hx & _).
  exists s2. split.
  - injection E1 as <-. exact E2.
  - split; [exact Hs | apply Hx].
Defined.

(** X8: setting a freeze or whitelist flag and setting it back undoes
    the first call: after [freezeAddress(u)] then [unfreezeAddress(u)] on
    an address that was not frozen (or the reverse on one that was), and
    after [addToWhitelist(u)] then [removeFromWhitelist(u)] on an address
    that was not whitelisted (or the reverse on one that was), every
    further sequence of transactions runs as it would have without the
    pair. *)
Theorem flag_toggle_restores (s : State) (c1 c2 : Ctx) (u : address)
    (tr : list (Ctx * Call)) :
  owner s = sender c1 -> sender c2 = sender c1 ->
  (isFrozen s u = false ->
   same_storage
     (run s ([(c1, call_freezeAddress u); (c2, call_unfreezeAddress u)]
             ++ tr))
     (run s tr)) /\
  (isFrozen s u = true ->
   same_storage
     (run s ([(c1, call_unfreezeAddress u); (c2, call_freezeAddress u)]
             ++ tr))
     (run s tr)) /\
  (isWhitelisted s u = false ->
   same_storage
     (run s ([(c1, call_addToWhitelist u);
              (c2, call_removeFromWhitelist u)] ++ tr))
     (run s tr)) /\
  (isWhitelisted s u = true ->
   same_storage
     (run s ([(c1, call_removeFromWhitelist u);
              (c2, call_addToWhitelist u)] ++ tr))
     (run s tr)).
Proof.
  intros Ho Hc.
  assert (Ho2 : forall s1, owner s1 = owner s -> onlyOwner s1 c2 = Ok tt).
  { intros s1 E. apply onlyOwner_owner. congruence. }
  assert (Hfr : forall b e1 e2, isFrozen s u = b ->
            same_storage
              (emit e2 (set_frozen u b (emit e1 (set_frozen u (negb b) s))))
              s).
  { intros b e1 e2 Hb. repeat split; try done. intros a.
    change (isFrozen (set_frozen u b (emit e1 (set_frozen u (negb b) s))) a
            = isFrozen s a).
    rewrite isFrozen_set_frozen.
    destruct (N.eqb_spec a u) as [->|Hne]; [done|].
    change (isFrozen (set_frozen u (negb b) s) a = isFrozen s a).
    rewrite isFrozen_set_frozen. by destruct (N.eqb_spec a u). }
  assert (Hwl : forall b e1 e2, isWhitelisted s u = b ->
            same_storage
              (emit e2
                 (set_whitelist u b (emit e1 (set_whitelist u (negb b) s))))
              s).
  { intros b e1 e2 Hb. repeat split; try done. intros a.
    change (isWhitelisted
              (set_whitelist u b (emit e1 (set_whitelist u (negb b) s))) a
            = isWhitelisted s a).
    rewrite isWhitelisted_set_whitelist.
    destruct (N.eqb_spec a u) as [->|Hne]; [done|].
    change (isWhitelisted (set_whitelist u (negb b) s) a
            = isWhitelisted s a).
    rewrite isWhitelisted_set_whitelist. by destruct (N.eqb_spec a u). }
  refine (conj _ (conj _ (conj _ _)));
    intros Hflag; rewrite run_app; apply run_same_storage;
    simpl; unfold step; simpl;
    unfold freezeAddress, unfreezeAddress, addToWhitelist,
      removeFromWhitelist;
    rewrite (onlyOwner_owner s c1 Ho); simpl;
    rewrite Ho2 by done; simpl.
  - by apply (Hfr false).
  - by apply (Hfr true).
  - by apply (Hwl false).
  - by apply (Hwl true).
Qed.

Lemma flag_toggle_restores_witness :
  same_storage
    (run s_funded
       ([(mkCtx deployer1 1001, call_freezeAddress alice);
         (mkCtx deployer1 1002, call_unfreezeAddress alice)]
        ++ [(mkCtx alice 1003, call_transfer bob 4)]))
    (run s_funded [(mkCtx alice 1003, call_transfer bob 4)]).
Proof.
  apply (flag_toggle_restores s_funded (mkCtx deployer1 1001)
           (mkCtx deployer1 1002) alice
           [(mkCtx alice 1003, call_transfer bob 4)] eq_refl eq_refl).
  by vm_compute.
Defined.

(** ** Accounting of one transaction *)

Lemma after_balances (s s' : State) from to amount :
  _afterTokenTransfer s from to amount = Ok s' ->
  balances s' = balances s /\ totalSupply s' = totalSupply s.
Proof.
  intros H. by apply after_Ok in H as [[-> _]|(-> & _)].
Qed.

Lemma moved_in_exec (h : address) (s s' : State) (c : Ctx) (call : Call) :
  exec s c call = Ok s' ->
  moved_in h s c call =
    match call with
    | call_mint to amount | call_mintWithVesting to amount _
    | call_transfer to amount => if N.eqb to h then amount else 0
    | _ => 0
    end.
Proof. intros H. unfold moved_in. by rewrite H. Qed.

Lemma balanceOf_same_balances (s s' : State) (h : address) :
  balances s' = balances s -> balanceOf s' h = balanceOf s h.
Proof. intros E. unfold balanceOf. by rewrite E. Qed.

Lemma exec_accounting (s s' : State) (c : Ctx) (call : Call) (h : address) :
  core_inv s -> wf_call c call -> exec s c call = Ok s' ->
  balanceOf s' h
    = balanceOf s h + moved_in h s c call - moved_out h s c call /\
  totalSupply s' = totalSupply s + supply_change call /\
  0 <= moved_in h s c call.
Proof.
  intros Hc [Ht Hwf] H.
  rewrite (moved_in_exec h s s' c call H), (moved_out_exec h s s' c call H).
  destruct call; simpl in H, Hwf |- *.
  - apply admin_Ok in H as ->. split; [|split; [simpl; lia | lia]].
    change (balanceOf s h = balanceOf s h + 0 - 0). lia.
  - apply admin_Ok in H as ->. split; [|split; [simpl; lia | lia]].
    change (balanceOf s h = balanceOf s h + 0 - 0). lia.
  - apply admin_Ok in H as ->. split; [|split; [simpl; lia | lia]].
    change (balanceOf s h = balanceOf s h + 0 - 0). lia.
  - apply admin_Ok in H as ->. split; [|split; [simpl; lia | lia]].
    change (balanceOf s h = balanceOf s h + 0 - 0). lia.
  - unfold pause in H. apply bind_Ok in H as (? & _ & H).
    apply bind_Ok in H as (? & _ & H). injection H as <-. split; [|split; [simpl; lia | lia]].
    change (balanceOf s h = balanceOf s h + 0 - 0). lia.
  - unfold unpause in H. apply bind_Ok in H as (? & _ & H).
    apply bind_Ok in H as (? & _ & H). injection H as <-. split; [|split; [simpl; lia | lia]].
    change (balanceOf s h = balanceOf s h + 0 - 0). lia.
  - apply mint_Ok in H as (_ & s1 & H1 & ->).
    apply _mint_Ok in H1 as (_ & _ & _ & _ & Hts & ->).
    pose proof (balance_bounds s to Hc) as Hb. destruct Hwf as [Hlo _].
    split; [|split; [simpl; lia | destruct (N.eqb to h); lia]].
    change (balanceOf
              (set_balance to (wrap256 (balanceOf s to + amount)) s) h
            = balanceOf s h + (if N.eqb to h then amount else 0) - 0).
    rewrite balanceOf_set_balance, wrap256_small by lia.
    rewrite (N.eqb_sym h to).
    destruct (N.eqb_spec to h) as [->|]; lia.
  - apply mintWithVesting_Ok in H as (_ & _ & s1 & H1 & ->).
    apply _mint_Ok in H1 as (_ & _ & _ & _ & Hts & ->).
    pose proof (balance_bounds s to Hc) as Hb. destruct Hwf as [[Hlo _] _].
    split; [|split; [simpl; lia | destruct (N.eqb to h); lia]].
    change (balanceOf
              (set_balance to (wrap256 (balanceOf s to + amount)) s) h
            = balanceOf s h + (if N.eqb to h then amount else 0) - 0).
    rewrite balanceOf_set_balance, wrap256_small by lia.
    rewrite (N.eqb_sym h to).
    destruct (N.eqb_spec to h) as [->|]; lia.
  - apply burn_Ok in H as (_ & s1 & H1 & ->).
    apply _burn_Ok in H1 as (_ & _ & _ & _ & _ & Hbal & Hafter).
    destruct Hwf as [Hlo _].
    destruct (core_inv_burned s from amount Hc (conj Hlo Hbal))
      as (_ & Ets & Ebal).
    apply after_balances in Hafter as [Eb Et].
    split; [|split; [|lia]].
    + change (balanceOf s1 h
              = balanceOf s h + 0 - (if N.eqb from h then amount else 0)).
      rewrite (balanceOf_same_balances _ _ h Eb).
      change (balanceOf
                (set_balance from (wrap256 (balanceOf s from - amount)) s) h
              = balanceOf s h + 0 - (if N.eqb from h then amount else 0)).
      rewrite balanceOf_set_balance, Ebal, (N.eqb_sym h from).
      destruct (N.eqb_spec from h) as [->|]; lia.
    + change (totalSupply s1 = totalSupply s + - amount).
      rewrite Et. simpl. rewrite Ets. lia.
  - unfold transfer in H.
    apply _transfer_Ok in H
      as (_ & _ & _ & _ & _ & _ & _ & _ & Hbal & Hafter).
    apply after_balances in Hafter as [Eb Et].
    pose proof (balance_bounds s (sender c) Hc) as Hbs.
    pose proof (balance_bounds s to Hc) as Hbt.
    pose proof (inv_supply_max s Hc) as Hmax. destruct Hwf as [Hlo _].
    split; [|split; [rewrite Et; simpl; lia | destruct (N.eqb to h); lia]].
    rewrite (balanceOf_same_balances _ _ h Eb).
    change (balanceOf
              (set_balance to
                 (wrap256
                    (balanceOf
                       (set_balance (sender c)
                          (wrap256 (balanceOf s (sender c) - amount)) s) to
                     + amount))
                 (set_balance (sender c)
                    (wrap256 (balanceOf s (sender c) - amount)) s)) h
            = balanceOf s h + (if N.eqb to h then amount else 0)
              - (if N.eqb (sender c) h then amount else 0)).
    rewrite (wrap256_small (balanceOf s (sender c) - amount)) by lia.
    rewrite !balanceOf_set_balance.
    rewrite (N.eqb_sym h to), (N.eqb_sym h (sender c)).
    destruct (N.eqb_spec to (sender c)) as [E|Hne].
    + rewrite E. rewrite wrap256_small by lia.
      destruct (N.eqb_spec (sender c) h) as [E'|]; rewrite ?E' in *; lia.
    + assert (Hb1 : map_Forall (fun _ b => 0 <= b)
                      (balances
                         (set_balance (sender c)
                            (balanceOf s (sender c) - amount) s))).
      { simpl. apply map_Forall_insert_2; [lia | apply (inv_balances s Hc)]. }
      pose proof (sum_map_lookup_le _ to Hb1) as Hto.
      change (0 <= balanceOf
                     (set_balance (sender c)
                        (balanceOf s (sender c) - amount) s) to
              <= sum_balances
                   (set_balance (sender c)
                      (balanceOf s (sender c) - amount) s)) in Hto.
      rewrite sum_balances_set_balance in Hto.
      rewrite balanceOf_set_balance_ne in Hto by done.
      pose proof (inv_supply s Hc) as Hsum.
      rewrite wrap256_small by lia.
      destruct (N.eqb_spec to h) as [->|];
        destruct (N.eqb_spec (sender c) h) as [E'|];
        rewrite ?E' in *; try lia; congruence.
Qed.

(** X9: a successful transaction changes every balance by exactly the
    units that arrived less the units that left (the unchecked additions
    and subtractions of the ERC20 internals never wrap), and changes
    [totalSupply] by exactly the amount minted or burned. *)
Theorem balance_accounting (s s' : State) (c : Ctx) (call : Call) :
  reachable s -> wf_call c call -> exec s c call = Ok s' ->
  (forall h, balanceOf s' h
             = balanceOf s h + moved_in h s c call - moved_out h s c call) /\
  totalSupply s' = totalSupply s + supply_change call.
Proof.
  intros Hr Hwf H. destruct (reachable_ledger_inv s Hr) as [Hc _].
  split.
  - intros h. by destruct (exec_accounting s s' c call h Hc Hwf H).
  - by destruct (exec_accounting s s' c call zero_address Hc Hwf H)
      as (_ & ? & _).
Qed.

Lemma reachable_s_funded : reachable s_funded.
Proof. unfold s_funded. apply reachable_run; [apply reachable_s_listed|].
  repeat constructor; solve_wf_call. Qed.

Lemma reachable_s_bob_frozen : reachable s_bob_frozen.
Proof. unfold s_bob_frozen. apply reachable_run; [apply reachable_s_funded|].
  repeat constructor; solve_wf_call. Qed.

Lemma balance_accounting_witness :
  exists s',
    exec s_funded (mkCtx alice 1001) (call_transfer bob 4) = Ok s' /\
    balanceOf s' alice = 6 /\ balanceOf s' bob = 4 /\ totalSupply s' = 10.
Proof.
  exists (step s_funded (mkCtx alice 1001) (call_transfer bob 4)).
  assert (E : exec s_funded (mkCtx alice 1001) (call_transfer bob 4)
              = Ok (step s_funded (mkCtx alice 1001) (call_transfer bob 4)))
    by (vm_compute; reflexivity).
  destruct (balance_accounting s_funded _ (mkCtx alice 1001)
              (call_transfer bob 4) reachable_s_funded
              ltac:(solve_wf_call) E) as [Hb Hs].
  split; [exact E|].
  rewrite (Hb alice), (Hb bob), Hs. by vm_compute.
Defined.

(** ** What is locked is covered by the balance *)

Lemma exec_schedule_new (s s' : State) (c : Ctx) (call : Call) (h : address) :
  total (vestingOf s h) <= 0 -> exec s c call = Ok s' ->
  vestingOf s' h = vestingOf s h \/
  exists amount dur,
    call = call_mintWithVesting h amount dur /\
    vestingOf s' h = mkVesting amount 0 (to_uint64 (timestamp c)) dur.
Proof.
  intros Hv H.
  assert (Hafter : forall s3 s1 from to amount,
            vesting s3 = vesting s ->
            _afterTokenTransfer s3 from to amount = Ok s1 ->
            vestingOf s1 h = vestingOf s h).
  { intros s3 s1 from to amount Ev Ha.
    assert (Evo : forall a, vestingOf s3 a = vestingOf s a).
    { intros a. unfold vestingOf. by rewrite Ev. }
    apply after_Ok in Ha as [[-> _]|(-> & _ & Hpos)]; [apply Evo|].
    rewrite Evo in Hpos.
    rewrite vestingOf_set_vesting_ne; [apply Evo|]. intros ->. lia. }
  destruct call; simpl in H.
  - apply admin_Ok in H as ->. by left.
  - apply admin_Ok in H as ->. by left.
  - apply admin_Ok in H as ->. by left.
  - apply admin_Ok in H as ->. by left.
  - unfold pause in H. apply bind_Ok in H as (? & _ & H).
    apply bind_Ok in H as (? & _ & H). injection H as <-. by left.
  - unfold unpause in H. apply bind_Ok in H as (? & _ & H).
    apply bind_Ok in H as (? & _ & H). injection H as <-. by left.
  - apply mint_Ok in H as (_ & s1 & H1 & ->).
    apply _mint_Ok in H1 as (_ & _ & _ & _ & _ & ->). by left.
  - apply mintWithVesting_Ok in H as (_ & _ & s1 & H1 & ->).
    apply _mint_Ok in H1 as (_ & _ & _ & _ & _ & ->).
    destruct (N.eq_dec to h) as [->|Hne].
    + right. exists amount, dur. split; [done|].
      unfold vestingOf. simpl. by rewrite lookup_insert_eq.
    + left. unfold vestingOf. simpl. by rewrite lookup_insert_ne.
  - apply burn_Ok in H as (_ & s1 & H1 & ->).
    apply _burn_Ok in H1 as (_ & _ & _ & _ & _ & _ & Ha).
    left. change (vestingOf s1 h = vestingOf s h).
    eapply Hafter; [| exact Ha]. reflexivity.
  - unfold transfer in H.
    apply _transfer_Ok in H as (_ & _ & _ & _ & _ & _ & _ & _ & _ & Ha).
    left. eapply Hafter; [| exact Ha]. reflexivity.
Qed.

Lemma backed_exec (s s' : State) (c : Ctx) (call : Call) :
  core_inv s -> backed s -> wf_call c call -> exec s c call = Ok s' ->
  backed s'.
Proof.
  intros Hc Hb Hwf H h Hv'.
  destruct (exec_accounting s s' c call h Hc Hwf H) as (Ebal & _ & Hin).
  destruct (Z.lt_ge_cases 0 (total (vestingOf s h))) as [Hv|Hv].
  - destruct (exec_schedule s s' c call h Hc Hwf Hv H) as [Hout Es].
    rewrite Es, Ebal. simpl. specialize (Hb h Hv). lia.
  - destruct (exec_schedule_new s s' c call h Hv H)
      as [E|(amount & dur & -> & E)].
    + rewrite E in Hv'. lia.
    + rewrite E, Ebal. simpl.
      rewrite (moved_in_exec h s s' c _ H), (moved_out_exec h s s' c _ H).
      rewrite N.eqb_refl. pose proof (balance_bounds s h Hc). lia.
Qed.

Lemma reachable_backed (s : State) : reachable s -> backed s.
Proof.
  induction 1 as [d | s c call Hr IH Hwf].
  - intros h Hv. unfold vestingOf in Hv. simpl in Hv.
    rewrite lookup_empty in Hv. simpl in Hv. lia.
  - unfold step. destruct (exec s c call) as [s'|e] eqn:E; [|done].
    eapply backed_exec; [| exact IH | exact Hwf | exact E].
    apply (reachable_ledger_inv s Hr).
Qed.

Lemma available_le_balance (s : State) (h : address) (t a : Z) :
  core_inv s -> backed s -> available s h t = Ok a ->
  0 <= a <= balanceOf s h.
Proof.
  intros Hc Hb Ha.
  destruct (inv_vesting s Hc h) as ([Hr0 Hrt] & _).
  destruct (Z.lt_ge_cases 0 (total (vestingOf s h))) as [Hv|Hv].
  - pose proof (available_le_total s h t a Hv Hr0 Ha).
    specialize (Hb h Hv). lia.
  - unfold available in Ha.
    destruct (Z.eqb_spec (total (vestingOf s h)) 0); [|lia].
    injection Ha as <-. pose proof (balance_bounds s h Hc). lia.
Qed.

(** X10: in every reachable state the part of a schedule not yet
    released is covered by the holder's balance, [total - released <=
    balance], and whatever [available] returns for any holder lies between
    0 and that holder's balance. *)
Theorem locked_is_backed (s : State) (h : address) :
  reachable s ->
  (0 < total (vestingOf s h) ->
   total (vestingOf s h) - released (vestingOf s h) <= balanceOf s h) /\
  (forall t a, available s h t = Ok a -> 0 <= a <= balanceOf s h).
Proof.
  intros Hr. destruct (reachable_ledger_inv s Hr) as [Hc _].
  pose proof (reachable_backed s Hr) as Hb. split.
  - apply Hb.
  - intros t a. by apply available_le_balance.
Qed.

Lemma locked_is_backed_witness :
  total (vestingOf (run s_vesting bob_sends) bob)
  - released (vestingOf (run s_vesting bob_sends) bob)
    <= balanceOf (run s_vesting bob_sends) bob.
Proof.
  assert (Hr : reachable (run s_vesting bob_sends)).
  { apply reachable_run; [apply reachable_s_vesting|].
    repeat constructor; solve_wf_call. }
  destruct (locked_is_backed (run s_vesting bob_sends) bob Hr) as [H _].
  apply H. by vm_compute.
Defined.

(** ** When a balance mutation goes through *)

Lemma before_pass (s : State) t from to amount :
  paused s = false ->
  (from <> zero_address ->
     isFrozen s from = false /\ isWhitelisted s from = true /\
     (0 < total (vestingOf s from) ->
      exists a, available s from t = Ok a /\ amount <= a)) ->
  (to <> zero_address ->
     isFrozen s to = false /\ isWhitelisted s to = true) ->
  _beforeTokenTransfer s t from to amount = Ok tt.
Proof.
  intros Hp Hfrom Hto. rewrite before_receiver by done.
  destruct (N.eqb_spec to zero_address) as [->|Ht]; [done|].
  by destruct (Hto Ht) as [-> ->].
Qed.

(** After a passed gate the balance covers the amount and the settlement
    hook returns. *)
Lemma outflow_settles (s s3 : State) t from to amount :
  core_inv s -> backed s -> 0 <= amount -> from <> zero_address ->
  _beforeTokenTransfer s t from to amount = Ok tt ->
  (total (vestingOf s from) <= 0 -> amount <= balanceOf s from) ->
  vesting s3 = vesting s ->
  amount <= balanceOf s from /\
  exists s1, _afterTokenTransfer s3 from to amount = Ok s1.
Proof.
  intros Hc Hb Hamt Hf Hg Hbal Ev.
  apply before_Ok in Hg as (_ & Hfrom & _).
  destruct (Hfrom Hf) as (_ & _ & Hav).
  assert (Evo : vestingOf s3 from = vestingOf s from).
  { unfold vestingOf. by rewrite Ev. }
  destruct (Z.lt_ge_cases 0 (total (vestingOf s from))) as [Hv|Hv].
  - destruct (Hav Hv) as (a & Ha & Hle).
    pose proof (available_le_balance s from t a Hc Hb Ha).
    split; [lia|].
    destruct (gate_bounds_release s from t a amount
                (inv_vesting s Hc from) Hv Ha (conj Hamt Hle)) as [Hrel _].
    destruct (inv_vesting s Hc from) as (_ & Hmax & _).
    rewrite after_scheduled by (by rewrite ?Evo).
    rewrite Evo, checked_add_fits by lia. simpl. eauto.
  - split; [by apply Hbal|].
    rewrite after_unscheduled by (by rewrite Evo). eauto.
Qed.

(** X11: in a reachable state a transfer goes through exactly when
    sender and receiver are non-null, the gate passes and, for a sender
    without a schedule, the balance covers the amount.  For a sender with
    a schedule the lock check already implies the balance check, so such a
    transfer never fails for want of balance. *)
Theorem transfer_succeeds_iff (s : State) (c : Ctx) (to : address)
    (amount : Z) :
  reachable s -> 0 <= amount ->
  ((exists s', transfer s c to amount = Ok s') <->
   sender c <> zero_address /\ to <> zero_address /\
   _beforeTokenTransfer s (timestamp c) (sender c) to amount = Ok tt /\
   (total (vestingOf s (sender c)) <= 0 ->
    amount <= balanceOf s (sender c))).
Proof.
  intros Hr Hamt. destruct (reachable_ledger_inv s Hr) as [Hc _].
  pose proof (reachable_backed s Hr) as Hb. split.
  - intros [s' H]. unfold transfer in H.
    apply _transfer_Ok in H
      as (Hf & Ht & Hp & Hfr & Hw & Hfr' & Hw' & Hav & Hbal & _).
    split; [done|]. split; [done|]. split; [|done].
    by apply before_pass.
  - intros (Hf & Ht & Hg & Hbal). unfold transfer, _transfer.
    rewrite !neq_zero_eqb by done. simpl. rewrite Hg. simpl.
    destruct (outflow_settles s
                (emit (Transfer (sender c) to amount)
                   (set_balance to
                      (wrap256
                         (balanceOf
                            (set_balance (sender c)
                               (wrap256 (balanceOf s (sender c) - amount)) s)
                            to + amount))
                      (set_balance (sender c)
                         (wrap256 (balanceOf s (sender c) - amount)) s)))
                (timestamp c) (sender c) to amount Hc Hb Hamt Hf Hg Hbal
                eq_refl) as (Hle & s1 & Ha).
    destruct (Z.leb_spec amount (balanceOf s (sender c))); [|lia]. simpl.
    rewrite Ha. eauto.
Qed.

Lemma transfer_succeeds_iff_witness :
  (exists s', transfer s_vesting (mkCtx bob 1010) alice 10 = Ok s') /\
  ~ (exists s', transfer s_funded (mkCtx alice 1001) bob 11 = Ok s').
Proof.
  split.
  - apply (transfer_succeeds_iff s_vesting (mkCtx bob 1010) alice 10
             reachable_s_vesting); [lia|].
    repeat split; try by vm_compute.
  - intros H.
    apply (transfer_succeeds_iff s_funded (mkCtx alice 1001) bob 11
             reachable_s_funded) in H as (_ & _ & _ & Hbal); [|lia].
    specialize (Hbal ltac:(by vm_compute)). vm_compute in Hbal.
    by apply Hbal.
Defined.

(** X12: in a reachable state the owner's burn goes through exactly when
    the holder is non-null, the gate passes for it as sender and, for a
    holder without a schedule, the balance covers the amount; any other
    caller is rejected. *)
Theorem burn_succeeds_iff (s : State) (c : Ctx) (from : address)
    (amount : Z) :
  reachable s -> 0 <= amount ->
  ((exists s', burn s c from amount = Ok s') <->
   owner s = sender c /\ from <> zero_address /\
   _beforeTokenTransfer s (timestamp c) from zero_address amount = Ok tt /\
   (total (vestingOf s from) <= 0 -> amount <= balanceOf s from)).
Proof.
  intros Hr Hamt. destruct (reachable_ledger_inv s Hr) as [Hc _].
  pose proof (reachable_backed s Hr) as Hb. split.
  - intros [s' H]. apply burn_Ok in H as (Ho & s1 & H1 & _).
    apply _burn_Ok in H1 as (Hf & Hp & Hfr & Hw & Hav & Hbal & _).
    split; [done|]. split; [done|]. split; [|done].
    by apply before_pass.
  - intros (Ho & Hf & Hg & Hbal). unfold burn, _burn.
    rewrite onlyOwner_owner by done. simpl.
    rewrite neq_zero_eqb by done. simpl. rewrite Hg. simpl.
    destruct (outflow_settles s
                (emit (Transfer from zero_address amount)
                   (set_totalSupply (wrap256 (totalSupply s - amount))
                      (set_balance from
                         (wrap256 (balanceOf s from - amount)) s)))
                (timestamp c) from zero_address amount Hc Hb Hamt Hf Hg Hbal
                eq_refl) as (Hle & s1 & Ha).
    destruct (Z.leb_spec amount (balanceOf s from)); [|lia]. simpl.
    rewrite Ha. simpl. eauto.
Qed.

Lemma burn_succeeds_iff_witness :
  (exists s', burn s_funded (mkCtx deployer1 1001) alice 10 = Ok s') /\
  ~ (exists s', burn s_funded (mkCtx deployer1 1001) alice 11 = Ok s').
Proof.
  split.
  - apply (burn_succeeds_iff s_funded (mkCtx deployer1 1001) alice 10
             reachable_s_funded); [lia|].
    repeat split; try by vm_compute.
  - intros H.
    apply (burn_succeeds_iff s_funded (mkCtx deployer1 1001) alice 11
             reachable_s_funded) in H as (_ & _ & _ & Hbal); [|lia].
    specialize (Hbal ltac:(by vm_compute)). vm_compute in Hbal.
    by apply Hbal.
Defined.

(** X13: [mint] goes through exactly when the caller is the owner, the
    receiver is whitelisted, non-null and not frozen, the ledger is not
    paused and [totalSupply + amount] fits 256 bits; when only the last
    condition fails it reverts with an arithmetic panic, so the supply
    never exceeds [2^256 - 1].  [mintWithVesting] needs in addition that
    the receiver has no schedule. *)
Theorem mint_succeeds_iff (s : State) (c : Ctx) (to : address) (amount : Z) :
  let ready :=
    owner s = sender c /\ isWhitelisted s to = true /\
    to <> zero_address /\ paused s = false /\ isFrozen s to = false in
  ((exists s', mint s c to amount = Ok s') <->
   ready /\ totalSupply s + amount <= MAX_UINT256) /\
  (forall dur,
     (exists s', mintWithVesting s c to amount dur = Ok s') <->
     ready /\ total (vestingOf s to) = 0 /\
     totalSupply s + amount <= MAX_UINT256) /\
  (ready -> MAX_UINT256 < totalSupply s + amount ->
   mint s c to amount = Revert PanicOverflow).
Proof.
  intros ready. unfold ready. split; [|split].
  - split.
    + intros [s' H]. apply mint_Ok in H as (Ho & s1 & H1 & _).
      by apply _mint_Ok in H1 as (? & ? & ? & ? & ? & _).
    + intros ((Ho & Hw & Ht & Hp & Hfr) & Hts). unfold mint.
      rewrite onlyOwner_owner, Hw by done. simpl.
      rewrite _mint_pass by done. simpl. eauto.
  - intros dur. split.
    + intros [s' H].
      apply mintWithVesting_Ok in H as (Ho & Hv & s1 & H1 & _).
      by apply _mint_Ok in H1 as (? & ? & ? & ? & ? & _).
    + intros ((Ho & Hw & Ht & Hp & Hfr) & Hv & Hts). unfold mintWithVesting.
      rewrite onlyOwner_owner, Hw, Hv by done. simpl.
      rewrite _mint_pass by done. simpl. eauto.
  - intros (Ho & Hw & Ht & Hp & Hfr) Hts.
    unfold mint, _mint, _beforeTokenTransfer, whenNotPaused.
    rewrite onlyOwner_owner, Hw by done. simpl.
    rewrite neq_zero_eqb, Hp, Hfr by done. simpl.
    by rewrite checked_add_overflow.
Qed.

Lemma mint_succeeds_iff_witness :
  (exists s', mint s_listed (mkCtx deployer1 1001) alice 10 = Ok s') /\
  mint s_huge (mkCtx deployer1 1001) alice (2 ^ 255) = Revert PanicOverflow.
Proof.
  destruct (mint_succeeds_iff s_listed (mkCtx deployer1 1001) alice 10)
    as (Hiff & _ & _).
  destruct (mint_succeeds_iff s_huge (mkCtx deployer1 1001) alice (2 ^ 255))
    as (_ & _ & Hcap).
  split.
  - apply Hiff. repeat split; by vm_compute.
  - apply Hcap; [repeat split|]; by vm_compute.
Defined.

(** ** Ranges *)

(** X14: in every reachable state every balance lies between 0 and
    [totalSupply], which fits 256 bits, and every schedule has [start] and
    [duration] within 64 bits and [0 <= released <= total] within 256. *)
Theorem balances_within_supply (s : State) (a : address) :
  reachable s ->
  0 <= balanceOf s a <= totalSupply s /\ totalSupply s <= MAX_UINT256 /\
  wf_vesting (vestingOf s a).
Proof.
  intros Hr. destruct (reachable_ledger_inv s Hr) as [Hc _].
  split; [by apply balance_bounds|].
  split; [apply (inv_supply_max s Hc) | apply (inv_vesting s Hc)].
Qed.

Lemma balances_within_supply_witness :
  0 <= balanceOf s_vesting bob <= totalSupply s_vesting /\
  totalSupply s_vesting <= MAX_UINT256 /\
  wf_vesting (vestingOf s_vesting bob).
Proof. apply (balances_within_supply s_vesting bob reachable_s_vesting). Defined.

(** ** Rounding and growth of the vested amount *)

(** X15: under a schedule with [total > 0] every value [vestedAmount]
    returns lies between 0 and [total]; strictly inside the vesting period
    it is the exact linear share rounded down, never more than the share
    and less than one unit below it. *)
Theorem vested_rounds_down (s : State) (h : address) (t v : Z) :
  0 < total (vestingOf s h) -> vestedAmount s h t = Ok v ->
  0 <= v <= total (vestingOf s h) /\
  (start (vestingOf s h) <= t
     < start (vestingOf s h) + duration (vestingOf s h) ->
   v * duration (vestingOf s h)
     <= total (vestingOf s h) * (t - start (vestingOf s h))
     < (v + 1) * duration (vestingOf s h)).
Proof.
  intros Hv H.
  destruct (vestedAmount_cases s h t) as [E|E]; [|congruence].
  rewrite H in E. injection E as ->. split.
  - split.
    + unfold vested_piecewise.
      destruct (Z.eqb_spec (total (vestingOf s h)) 0); [lia|].
      destruct (Z.ltb_spec t (start (vestingOf s h))); [lia|].
      destruct (Z.leb_spec
                  (start (vestingOf s h) + duration (vestingOf s h)) t);
        [lia|].
      apply Z.div_pos; nia.
    + by apply vested_piecewise_le_total.
  - intros [Hs Hf]. unfold vested_piecewise.
    destruct (Z.eqb_spec (total (vestingOf s h)) 0); [lia|].
    destruct (Z.ltb_spec t (start (vestingOf s h))); [lia|].
    destruct (Z.leb_spec
                (start (vestingOf s h) + duration (vestingOf s h)) t);
      [lia|].
    assert (Hd : 0 < duration (vestingOf s h)) by lia.
    pose proof (Z.mul_div_le
                  (total (vestingOf s h) * (t - start (vestingOf s h)))
                  _ Hd).
    pose proof (Z.mul_succ_div_gt
                  (total (vestingOf s h) * (t - start (vestingOf s h)))
                  _ Hd).
    lia.
Qed.

Lemma vested_rounds_down_witness :
  0 <= 33 <= total (vestingOf s_three_seconds bob) /\
  33 * 3 <= 100 * 1 < 34 * 3.
Proof.
  destruct (vested_rounds_down s_three_seconds bob 1001 33) as [Hb Hr];
    [by vm_compute | by vm_compute |].
  split; [exact Hb|]. apply Hr. by vm_compute.
Defined.

(** X16: with the ledger unchanged, [available] never decreases as
    time passes: the values it returns at [t1 <= t2] are ordered, and each
    is at least 0. *)
Theorem available_grows_with_time (s : State) (h : address) (t1 t2 a1 a2 : Z) :
  0 <= total (vestingOf s h) -> 0 <= balanceOf s h -> t1 <= t2 ->
  available s h t1 = Ok a1 -> available s h t2 = Ok a2 ->
  0 <= a1 <= a2.
Proof.
  intros Hv Hb Hle H1 H2.
  destruct (Z.eq_dec (total (vestingOf s h)) 0) as [E|E].
  - unfold available in H1, H2. rewrite E in H1, H2. simpl in H1, H2.
    injection H1 as <-. injection H2 as <-. lia.
  - apply available_Ok in H1 as [_ ->]; [|done].
    apply available_Ok in H2 as [_ ->]; [|done].
    pose proof (vested_piecewise_mono s h (balanceOf s h) t1 t2 Hv Hle).
    lia.
Qed.

Lemma available_grows_with_time_witness :
  available s_vesting bob 1010 = Ok 10 /\
  available s_vesting bob 1050 = Ok 50 /\ 0 <= 10 <= 50.
Proof.
  split; [by vm_compute|]. split; [by vm_compute|].
  apply (available_grows_with_time s_vesting bob 1010 1050 10 50);
    by vm_compute.
Defined.

(** ** Edge cases of [mintWithVesting] *)

Lemma reachable_s_bob_funded : reachable s_bob_funded.
Proof. unfold s_bob_funded. apply reachable_run; [apply reachable_s_listed|].
  repeat constructor; solve_wf_call. Qed.

(** X17: a [mintWithVesting] of amount 0 that goes through stores a
    record with [total = 0], which the contract reads as "no schedule":
    the holder's balance is unchanged and stays fully vested and
    available at every time, and a later [mintWithVesting] to the same
    holder is not rejected with "Vesting exists" but goes through
    (supply permitting) and replaces the stored start and duration. *)
Theorem zero_amount_vesting_is_no_schedule (s s1 : State) (c c' : Ctx)
    (to : address) (dur amount' dur' : Z) :
  reachable s -> mintWithVesting s c to 0 dur = Ok s1 ->
  balanceOf s1 to = balanceOf s to /\
  (forall t, vestedAmount s1 to t = Ok (balanceOf s1 to) /\
             available s1 to t = Ok (balanceOf s1 to)) /\
  (sender c' = sender c -> totalSupply s1 + amount' <= MAX_UINT256 ->
   exists s2,
     mintWithVesting s1 c' to amount' dur' = Ok s2 /\
     vestingOf s2 to = mkVesting amount' 0 (to_uint64 (timestamp c')) dur').
Proof.
  intros Hr H. destruct (reachable_ledger_inv s Hr) as [Hc _].
  apply mintWithVesting_Ok in H as (Ho & Hv & s0 & H0 & ->).
  apply _mint_Ok in H0 as (Ht & Hp & Hfr & Hw & Hts & ->).
  pose proof (balance_bounds s to Hc) as Hb.
  pose proof (inv_supply_max s Hc) as Hmax.
  set (s1 := emit _ _).
  assert (Ev : vestingOf s1 to = mkVesting 0 0 (to_uint64 (timestamp c)) dur).
  { unfold vestingOf. simpl. by rewrite lookup_insert_eq. }
  assert (Eb : balanceOf s1 to = balanceOf s to).
  { unfold balanceOf at 1. simpl. rewrite lookup_insert_eq. simpl.
    rewrite wrap256_small by lia. lia. }
  split; [exact Eb|]. split.
  - intros t. unfold available, vestedAmount. by rewrite Ev.
  - intros Hc' Hts'. unfold mintWithVesting.
    rewrite onlyOwner_owner by (simpl; congruence).
    change (isWhitelisted s1 to) with (isWhitelisted s to).
    rewrite Hw, Ev. simpl.
    rewrite _mint_pass by done. simpl.
    eexists. split; [reflexivity|].
    unfold vestingOf. simpl. by rewrite lookup_insert_eq.
Qed.

Lemma zero_amount_vesting_is_no_schedule_witness :
  exists s1,
    mintWithVesting s_bob_funded (mkCtx deployer1 1001) bob 0 50 = Ok s1 /\
    available s1 bob 1001 = Ok 40 /\
    exists s2,
      mintWithVesting s1 (mkCtx deployer1 1002) bob 5 60 = Ok s2 /\
      vestingOf s2 bob = mkVesting 5 0 1002 60.
Proof.
  exists (step s_bob_funded (mkCtx deployer1 1001)
            (call_mintWithVesting bob 0 50)).
  assert (E : mintWithVesting s_bob_funded (mkCtx deployer1 1001) bob 0 50
              = Ok (step s_bob_funded (mkCtx deployer1 1001)
                      (call_mintWithVesting bob 0 50)))
    by (vm_compute; reflexivity).
  destruct (zero_amount_vesting_is_no_schedule s_bob_funded _
              (mkCtx deployer1 1001) (mkCtx deployer1 1002) bob 50 5 60
              reachable_s_bob_funded E) as (Eb & Hav & Hnext).
  split; [exact E|]. split.
  - destruct (Hav 1001) as [_ ->]. rewrite Eb. by vm_compute.
  - destruct Hnext as (s2 & E2 & Ev); [reflexivity | by vm_compute |].
    exists s2. split; [exact E2|]. rewrite Ev. by vm_compute.
Defined.

(** X18: a [mintWithVesting] locks the balance the holder already had:
    afterwards the balance is the old one plus the amount, yet whatever
    [available] returns is at most the amount, at every time, and with a
    positive duration it is 0 at the time of the mint. *)
Theorem vesting_mint_locks_prior_balance (s s1 : State) (c : Ctx)
    (to : address) (amount dur : Z) :
  reachable s -> wf_call c (call_mintWithVesting to amount dur) ->
  0 < amount -> mintWithVesting s c to amount dur = Ok s1 ->
  balanceOf s1 to = balanceOf s to + amount /\
  (forall t a, available s1 to t = Ok a -> 0 <= a <= amount) /\
  (0 < dur -> timestamp c + dur <= MAX_UINT64 ->
   available s1 to (timestamp c) = Ok 0).
Proof.
  intros Hr Hwf Hamt H. destruct (reachable_ledger_inv s Hr) as [Hc _].
  destruct (exec_accounting s s1 c (call_mintWithVesting to amount dur) to
              Hc Hwf H) as (Eb & _ & _).
  rewrite (moved_in_exec to s s1 c (call_mintWithVesting to amount dur) H),
    (moved_out_exec to s s1 c (call_mintWithVesting to amount dur) H),
    N.eqb_refl in Eb.
  apply mintWithVesting_Ok in H as (Ho & Hv & s0 & H0 & ->).
  apply _mint_Ok in H0 as (Ht & Hp & Hfr & Hw & Hts & ->).
  set (s1 := emit _ _) in *.
  assert (Ev : vestingOf s1 to
               = mkVesting amount 0 (to_uint64 (timestamp c)) dur).
  { unfold vestingOf. simpl. by rewrite lookup_insert_eq. }
  split; [lia|]. split.
  - intros t a Ha.
    pose proof (available_le_total s1 to t a) as Hle.
    rewrite Ev in Hle. simpl in Hle. specialize (Hle Hamt ltac:(lia) Ha).
    lia.
  - intros Hdur Hfit. destruct Hwf as [[Ht0 Ht1] _].
    assert (Est : to_uint64 (timestamp c) = timestamp c).
    { unfold to_uint64. apply Z.mod_small. unfold MAX_UINT64 in Hfit. lia. }
    rewrite (available_of_vested s1 to (timestamp c) 0).
    + rewrite Ev. simpl. f_equal.
    + rewrite Ev. simpl. lia.
    + rewrite vestedAmount_during; rewrite Ev; simpl; rewrite ?Est;
        try lia.
      rewrite Z.sub_diag, checked_mul_fits
        by (rewrite Z.mul_0_r; unfold MAX_UINT256; lia).
      simpl. by rewrite Z.mul_0_r, Z.div_0_l by lia.
Qed.

Lemma vesting_mint_locks_prior_balance_witness :
  exists s1,
    mintWithVesting s_bob_funded (mkCtx deployer1 1001) bob 100 100 = Ok s1 /\
    balanceOf s1 bob = 140 /\ available s1 bob 1001 = Ok 0 /\
    available s1 bob 5000 = Ok 100.
Proof.
  exists (step s_bob_funded (mkCtx deployer1 1001)
            (call_mintWithVesting bob 100 100)).
  assert (E : mintWithVesting s_bob_funded (mkCtx deployer1 1001) bob 100 100
              = Ok (step s_bob_funded (mkCtx deployer1 1001)
                      (call_mintWithVesting bob 100 100)))
    by (vm_compute; reflexivity).
  destruct (vesting_mint_locks_prior_balance s_bob_funded _
              (mkCtx deployer1 1001) bob 100 100 reachable_s_bob_funded
              ltac:(solve_wf_call) ltac:(lia) E) as (Eb & _ & H0).
  split; [exact E|]. split; [rewrite Eb; by vm_compute|].
  split; [apply H0; by vm_compute | by vm_compute].
Defined.

(** ** The event log *)

Lemma after_events (s s' : State) from to amount :
  _afterTokenTransfer s from to amount = Ok s' -> events s' = events s.
Proof.
  intros H. by apply after_Ok in H as [[-> _]|(-> & _)].
Qed.

Lemma exec_events (s s' : State) (c : Ctx) (call : Call) :
  exec s c call = Ok s' -> events s' = events s ++ emitted c call.
Proof.
  intros H. destruct call; simpl in H |- *.
  - by apply admin_Ok in H as ->.
  - by apply admin_Ok in H as ->.
  - by apply admin_Ok in H as ->.
  - by apply admin_Ok in H as ->.
  - unfold pause in H. apply bind_Ok in H as (? & _ & H).
    apply bind_Ok in H as (? & _ & H). by injection H as <-.
  - unfold unpause in H. apply bind_Ok in H as (? & _ & H).
    apply bind_Ok in H as (? & _ & H). by injection H as <-.
  - apply mint_Ok in H as (_ & s1 & H1 & ->).
    apply _mint_Ok in H1 as (_ & _ & _ & _ & _ & ->).
    simpl. by rewrite <- app_assoc.
  - apply mintWithVesting_Ok in H as (_ & _ & s1 & H1 & ->).
    apply _mint_Ok in H1 as (_ & _ & _ & _ & _ & ->).
    simpl. by rewrite <- !app_assoc.
  - apply burn_Ok in H as (_ & s1 & H1 & ->).
    apply _burn_Ok in H1 as (_ & _ & _ & _ & _ & _ & Ha).
    apply after_events in Ha. simpl. rewrite Ha. simpl.
    by rewrite <- app_assoc.
  - unfold transfer in H.
    apply _transfer_Ok in H as (_ & _ & _ & _ & _ & _ & _ & _ & _ & Ha).
    apply after_events in Ha. by rewrite Ha.
Qed.

Lemma run_events (tr : list (Ctx * Call)) (s : State) :
  exists l, events (run s tr) = events s ++ l.
Proof.
  revert s. induction tr as [|[c call] tr IH]; intros s; simpl.
  - exists []. by rewrite app_nil_r.
  - destruct (IH (step s c call)) as [l El]. unfold step in *.
    destruct (exec s c call) as [s'|e] eqn:E.
    + exists (emitted c call ++ l).
      by rewrite El, (exec_events s s' c call E), app_assoc.
    + by exists l.
Qed.

(** X19: the log only grows.  A call that goes through appends exactly
    its own events, in the order the code emits them (one for a flag or
    pause change and for a transfer, [Transfer] then [Minted] for a mint,
    [Transfer], [MintedWithVesting], [VestingCreated] for a vesting mint,
    [Transfer] then [Burned] for a burn); a reverted call appends nothing;
    and after any sequence of transactions the earlier log is a prefix of
    the later one. *)
Theorem log_only_grows (s : State) (c : Ctx) (call : Call) :
  (forall s', exec s c call = Ok s' ->
     events s' = events s ++ emitted c call) /\
  (forall e, exec s c call = Revert e ->
     events (step s c call) = events s) /\
  (forall tr, exists l, events (run s tr) = events s ++ l).
Proof.
  split; [|split].
  - intros s'. apply exec_events.
  - intros e E. unfold step. by rewrite E.
  - intros tr. apply run_events.
Qed.

Lemma log_only_grows_witness :
  exists s',
    exec s_listed (mkCtx deployer1 1001) (call_mintWithVesting bob 7 9)
      = Ok s' /\
    events s' = events s_listed
                ++ [Transfer zero_address bob 7; MintedWithVesting bob 7 9;
                    VestingCreated bob 7 1001 9].
Proof.
  exists (step s_listed (mkCtx deployer1 1001) (call_mintWithVesting bob 7 9)).
  assert (E : exec s_listed (mkCtx deployer1 1001)
                (call_mintWithVesting bob 7 9)
              = Ok (step s_listed (mkCtx deployer1 1001)
                      (call_mintWithVesting bob 7 9)))
    by (vm_compute; reflexivity).
  split; [exact E|].
  destruct (log_only_grows s_listed (mkCtx deployer1 1001)
              (call_mintWithVesting bob 7 9)) as [H _].
  rewrite (H _ E). by vm_compute.
Defined.

(** ** The operator script *)

(** X20: [mint_and_freeze.js].  Run by a wallet that is not the owner it
    stops at its first transaction and changes nothing.  Run by the owner
    for a non-null target that is not frozen, on a ledger that is not
    paused and with room in the supply, all three transactions go
    through: the target's balance and the supply grow by the amount and
    the target ends up whitelisted and frozen.  Run by the owner for a
    target that is already frozen (as after a first run) or on a paused
    ledger, the whitelisting goes through and the mint is rejected with
    "Receiver frozen" resp. "Pausable: paused", leaving all balances as
    they were. *)
Theorem mint_and_freeze_outcome (s : State) (wallet : address)
    (t1 t2 t3 : Z) (TO : address) (amountUnits : Z) :
  reachable s -> 0 <= amountUnits ->
  (owner s <> wallet ->
   mint_and_freeze s wallet t1 t2 t3 TO amountUnits = (s, Revert NotOwner)) /\
  (owner s = wallet -> TO <> zero_address -> paused s = false ->
   isFrozen s TO = false -> totalSupply s + amountUnits <= MAX_UINT256 ->
   exists s3,
     mint_and_freeze s wallet t1 t2 t3 TO amountUnits
       = (s3, Ok (balanceOf s TO + amountUnits)) /\
     balanceOf s3 TO = balanceOf s TO + amountUnits /\
     totalSupply s3 = totalSupply s + amountUnits /\
     isWhitelisted s3 TO = true /\ isFrozen s3 TO = true /\
     owner s3 = wallet /\ paused s3 = false) /\
  (owner s = wallet -> TO <> zero_address ->
   paused s = true \/ isFrozen s TO = true ->
   mint_and_freeze s wallet t1 t2 t3 TO amountUnits
     = (emit (Whitelisted TO) (set_whitelist TO true s),
        Revert (if paused s then SystemPaused else ReceiverFrozen))).
Proof.
  intros Hr Hamt. destruct (reachable_ledger_inv s Hr) as [Hc _].
  unfold mint_and_freeze. split; [|split].
  - intros Ho. unfold addToWhitelist.
    by rewrite onlyOwner_other.
  - intros Ho Ht Hp Hfr Hts. unfold addToWhitelist.
    rewrite onlyOwner_owner by done. simpl.
    set (s1 := emit (Whitelisted TO) (set_whitelist TO true s)).
    assert (Hw1 : isWhitelisted s1 TO = true).
    { unfold isWhitelisted. simpl. by rewrite lookup_insert_eq. }
    unfold mint. rewrite onlyOwner_owner, Hw1 by done. simpl.
    rewrite _mint_pass by done. simpl.
    unfold freezeAddress. rewrite onlyOwner_owner by done. simpl.
    pose proof (balance_bounds s TO Hc) as Hb.
    assert (Eb : forall s', balances s' =
                   <[TO := wrap256 (balanceOf s1 TO + amountUnits)]>
                     (balances s) ->
                 balanceOf s' TO = balanceOf s TO + amountUnits).
    { intros s' E. unfold balanceOf at 1. rewrite E, lookup_insert_eq. simpl.
      change (balanceOf s1 TO) with (balanceOf s TO).
      apply wrap256_small. lia. }
    eexists. split; [f_equal; f_equal; by apply Eb|].
    split; [by apply Eb|]. split; [reflexivity|].
    split; [exact Hw1|]. split; [|done].
    unfold isFrozen. simpl. by rewrite lookup_insert_eq.
  - intros Ho Ht Hblocked. unfold addToWhitelist.
    rewrite onlyOwner_owner by done. simpl.
    set (s1 := emit (Whitelisted TO) (set_whitelist TO true s)).
    assert (Hw1 : isWhitelisted s1 TO = true).
    { unfold isWhitelisted. simpl. by rewrite lookup_insert_eq. }
    unfold mint, _mint. rewrite onlyOwner_owner, Hw1 by done. simpl.
    rewrite neq_zero_eqb by done. simpl.
    destruct (paused s) eqn:Hp.
    + by rewrite before_paused.
    + destruct Hblocked as [?|Hfr]; [done|].
      rewrite (before_receiver s1) by done.
      rewrite neq_zero_eqb by done.
      change (isFrozen s1 TO) with (isFrozen s TO). by rewrite Hfr.
Qed.

Lemma mint_and_freeze_outcome_witness :
  exists s3,
    mint_and_freeze s_listed deployer1 1001 1002 1003 carol 1000000
      = (s3, Ok 1000000) /\
    snd (mint_and_freeze s3 deployer1 1004 1005 1006 carol 5)
      = Revert ReceiverFrozen /\
    mint_and_freeze s_listed alice 1001 1002 1003 carol 5
      = (s_listed, Revert NotOwner).
Proof.
  destruct (mint_and_freeze_outcome s_listed deployer1 1001 1002 1003 carol
              1000000 reachable_s_listed ltac:(lia)) as (_ & Hok & _).
  destruct Hok as (s3 & E & _ & _ & _ & Hfr & Ho & Hp);
    [reflexivity | by vm_compute | reflexivity | reflexivity
    | by vm_compute |].
  exists s3. split; [rewrite E; by vm_compute|]. split.
  - assert (Hr3 : reachable s3).
    { apply (f_equal fst) in E. simpl in E. rewrite <- E.
      unfold mint_and_freeze. vm_compute.
      change (reachable
                (run s_listed
                   [(mkCtx deployer1 1001, call_addToWhitelist carol);
                    (mkCtx deployer1 1002, call_mint carol 1000000);
                    (mkCtx deployer1 1003, call_freezeAddress carol)])).
      apply reachable_run; [apply reachable_s_listed|].
      repeat constructor; solve_wf_call. }
    destruct (mint_and_freeze_outcome s3 deployer1 1004 1005 1006 carol 5
                Hr3 ltac:(lia)) as (_ & _ & Hblocked).
    rewrite Hblocked; [by rewrite Hp | done | by vm_compute | by right].
  - destruct (mint_and_freeze_outcome s_listed alice 1001 1002 1003 carol 5
                reachable_s_listed ltac:(lia)) as (Hno & _).
    apply Hno. by vm_compute.
Defined.

(** ** A schedule, once created *)

(** X21: no sequence of transactions alters or removes a schedule with
    [total > 0]: its [total], [start] and [duration] stay as created and
    [released] never decreases. *)
Theorem schedule_is_permanent (s : State) (h : address)
    (tr : list (Ctx * Call)) :
  reachable s -> Forall (fun x => wf_call (fst x) (snd x)) tr ->
  0 < total (vestingOf s h) ->
  total (vestingOf (run s tr) h) = total (vestingOf s h) /\
  start (vestingOf (run s tr) h) = start (vestingOf s h) /\
  duration (vestingOf (run s tr) h) = duration (vestingOf s h) /\
  released (vestingOf s h) <= released (vestingOf (run s tr) h).
Proof.
  intros Hr Htr Hv.
  destruct (run_schedule h tr s (reachable_ledger_inv s Hr) Htr Hv)
    as [Hm ->].
  simpl. repeat split; lia.
Qed.

Lemma schedule_is_permanent_witness :
  start (vestingOf (run s_vesting bob_sends) bob) = 1000 /\
  duration (vestingOf (run s_vesting bob_sends) bob) = 100.
Proof.
  destruct (schedule_is_permanent s_vesting bob bob_sends reachable_s_vesting)
    as (_ & Es & Ed & _).
  - repeat constructor; solve_wf_call.
  - by vm_compute.
  - rewrite Es, Ed. clear Es Ed. vm_compute. split; reflexivity.
Defined.

(** X22: a transfer to oneself by a holder with a schedule leaves every
    balance as it was but still counts as released: [released] grows by
    the amount, so the holder's remaining allowance shrinks. *)
Theorem self_transfer_consumes_allowance (s s' : State) (c : Ctx)
    (amount : Z) :
  reachable s -> wf_call c (call_transfer (sender c) amount) ->
  0 < total (vestingOf s (sender c)) ->
  transfer s c (sender c) amount = Ok s' ->
  (forall h, balanceOf s' h = balanceOf s h) /\
  totalSupply s' = totalSupply s /\
  released (vestingOf s' (sender c))
    = released (vestingOf s (sender c)) + amount.
Proof.
  intros Hr Hwf Hv H. destruct (reachable_ledger_inv s Hr) as [Hc _].
  split; [|split].
  - intros h.
    destruct (exec_accounting s s' c (call_transfer (sender c) amount) h
                Hc Hwf H) as (Eb & _ & _).
    rewrite Eb,
      (moved_in_exec h s s' c (call_transfer (sender c) amount) H),
      (moved_out_exec h s s' c (call_transfer (sender c) amount) H).
    lia.
  - destruct (exec_accounting s s' c (call_transfer (sender c) amount)
                (sender c) Hc Hwf H) as (_ & Et & _).
    rewrite Et. simpl. lia.
  - destruct (exec_schedule s s' c (call_transfer (sender c) amount)
                (sender c) Hc Hwf Hv H) as [_ ->].
    rewrite (moved_out_exec (sender c) s s' c
               (call_transfer (sender c) amount) H).
    by rewrite N.eqb_refl.
Qed.

Lemma self_transfer_consumes_allowance_witness :
  exists s',
    transfer s_vesting (mkCtx bob 1050) bob 50 = Ok s' /\
    balanceOf s' bob = 100 /\ released (vestingOf s' bob) = 50 /\
    available s' bob 1050 = Ok 0.
Proof.
  exists (step s_vesting (mkCtx bob 1050) (call_transfer bob 50)).
  assert (E : transfer s_vesting (mkCtx bob 1050) bob 50
              = Ok (step s_vesting (mkCtx bob 1050) (call_transfer bob 50)))
    by (vm_compute; reflexivity).
  destruct (self_transfer_consumes_allowance s_vesting _ (mkCtx bob 1050) 50
              reachable_s_vesting ltac:(solve_wf_call) ltac:(by vm_compute) E)
    as (Hb & _ & Hrel).
  cbn [sender] in Hrel.
  split; [exact E|].
  split; [rewrite (Hb bob); clear; vm_compute; reflexivity|].
  split; [rewrite Hrel|]; clear; vm_compute; reflexivity.
Defined.

(** X23: units minted with plain [mint] to a holder that has a schedule
    raise the balance but not what the holder may move: [available]
    returns the same at every time before and after the mint. *)
Theorem plain_mint_to_vesting_holder_is_locked (s s' : State) (c : Ctx)
    (to : address) (amount : Z) :
  reachable s -> wf_call c (call_mint to amount) ->
  0 < total (vestingOf s to) -> mint s c to amount = Ok s' ->
  balanceOf s' to = balanceOf s to + amount /\
  (forall t, available s' to t = available s to t).
Proof.
  intros Hr Hwf Hv H. destruct (reachable_ledger_inv s Hr) as [Hc _].
  split.
  - destruct (exec_accounting s s' c (call_mint to amount) to Hc Hwf H)
      as (Eb & _ & _).
    rewrite Eb, (moved_in_exec to s s' c (call_mint to amount) H),
      (moved_out_exec to s s' c (call_mint to amount) H), N.eqb_refl.
    lia.
  - intros t. apply available_same_schedule; [lia|].
    apply mint_Ok in H as (_ & s1 & H1 & ->).
    by apply _mint_Ok in H1 as (_ & _ & _ & _ & _ & ->).
Qed.

Lemma plain_mint_to_vesting_holder_is_locked_witness :
  exists s',
    mint s_vesting (mkCtx deployer1 1100) bob 25 = Ok s' /\
    balanceOf s' bob = 125 /\ available s' bob 1100 = Ok 100.
Proof.
  exists (step s_vesting (mkCtx deployer1 1100) (call_mint bob 25)).
  assert (E : mint s_vesting (mkCtx deployer1 1100) bob 25
              = Ok (step s_vesting (mkCtx deployer1 1100) (call_mint bob 25)))
    by (vm_compute; reflexivity).
  destruct (plain_mint_to_vesting_holder_is_locked s_vesting _
              (mkCtx deployer1 1100) bob 25 reachable_s_vesting
              ltac:(solve_wf_call) ltac:(by vm_compute) E) as (Hb & Hav).
  split; [exact E|].
  split; [rewrite Hb; clear; vm_compute; reflexivity|].
  rewrite Hav. clear. vm_compute. reflexivity.
Defined.

Lemma gate_passes_iff_witness :
  _beforeTokenTransfer s_funded 1001 alice bob 4 = Ok tt /\
  _beforeTokenTransfer s_bob_frozen 1001 alice bob 4 <> Ok tt.
Proof.
  split.
  - apply (gate_passes_iff s_funded 1001 alice bob 4).
    repeat split; try by vm_compute.
  - intros H.
    apply (gate_passes_iff s_bob_frozen 1001 alice bob 4) in H
      as (_ & _ & Hto).
    destruct (Hto ltac:(by vm_compute)) as [Hfr _].
    vm_compute in Hfr. discriminate Hfr.
Defined.
